(** * DocumentProducer and OrderByDocumentProducerComparator

    A shallow embedding of [source/lib/queryExecutionContext/documentProducer.js]:
    the per-partition producer (buffer, continuation tokens, sticky error) and
    the comparator that ranks two producers by the order-by items of their
    head documents.

    Callbacks are rendered in direct style: a method that ends by calling
    [callback(err, x, headers)] returns the triple [(err, x, headers)]
    together with the producer after the call.  A JS [undefined] argument is
    [None]. *)

From Stdlib Require Import List String Ascii ZArith Lia Bool PeanoNat.
From Stdlib Require Import PrimFloat.
From Stdlib Require SpecFloat FloatOps FloatAxioms OrderedTypeEx.
Import ListNotations.
Open Scope string_scope.
Open Scope list_scope.

Set Implicit Arguments.
Set Warnings "-register-all".

(** ** Completions: a call returns a value or throws *)

Inductive exn : Type :=
| TypeError                       (* raised by the engine: a property read on
                                     undefined, [in] on a primitive *)
| Error (msg : string)            (* [throw Error(msg)] of [_throwIf] *)
| AssertionError (msg : option string).
                                  (* raised by [assert.equal] / [assert.notEqual]; the message
                                     is generated by [assert] when the call gives none *)

Inductive completion (A : Type) : Type :=
| Returned (a : A)
| Threw (e : exn).

Arguments Returned {A} a.
Arguments Threw {A} e.

Definition bind {A B : Type} (c : completion A) (k : A -> completion B) : completion B :=
  match c with
  | Returned a => k a
  | Threw e => Threw e
  end.

Notation "x <- c ;; k" := (bind c (fun x => k))
  (at level 61, c at next level, right associativity).
Notation "c ;;; k" := (bind c (fun _ => k))
  (at level 61, right associativity).

(** ** JS values

    The values an order-by item can carry.  A number is an IEEE double, a
    string is its sequence of code units (each below 256), an object is the
    list of its own properties. *)

Inductive value : Type :=
| VUndefined
| VNull
| VBool (b : bool)
| VNumber (x : float)
| VString (s : string)
| VObject (props : list (string * value))
| VArray (elems : list value).

(** The strings [getType] can return: ['NoValue'] and the results of [typeof]. *)
Inductive TypeName : Type :=
| NoValue
| Tundefined
| Tobject
| Tboolean
| Tnumber
| Tstring
| Tfunction
| Tsymbol.

Definition type_name (t : TypeName) : string :=
  match t with
  | NoValue => "NoValue"
  | Tundefined => "undefined"
  | Tobject => "object"
  | Tboolean => "boolean"
  | Tnumber => "number"
  | Tstring => "string"
  | Tfunction => "function"
  | Tsymbol => "symbol"
  end.

Definition TypeName_eqb (a b : TypeName) : bool :=
  match a, b with
  | NoValue, NoValue | Tundefined, Tundefined | Tobject, Tobject
  | Tboolean, Tboolean | Tnumber, Tnumber | Tstring, Tstring
  | Tfunction, Tfunction | Tsymbol, Tsymbol => true
  | _, _ => false
  end.

(** [typeof v]; note [typeof null === 'object']. *)
Definition typeof (v : value) : TypeName :=
  match v with
  | VUndefined => Tundefined
  | VNull => Tobject
  | VBool _ => Tboolean
  | VNumber _ => Tnumber
  | VString _ => Tstring
  | VObject _ => Tobject
  | VArray _ => Tobject
  end.

(** [key in props] and [props[key]] on a list of own properties
    ([Object.prototype] has no property named item, true or false). *)
Definition has_property (props : list (string * value)) (key : string) : bool :=
  existsb (fun kv => String.eqb (fst kv) key) props.

Definition get_property (props : list (string * value)) (key : string) : value :=
  match find (fun kv => String.eqb (fst kv) key) props with
  | Some kv => snd kv
  | None => VUndefined
  end.

(** [!s] for a string [s] (only the empty string is falsy), and the property
    key a boolean is converted to on the left of [in]. *)
Definition not_string (s : string) : bool := String.eqb s "".

Definition key_of_bool (b : bool) : string := if b then "true" else "false".

(** The engine's [==] and [>] on operands the model does not evaluate itself:
    operands of different types (coerced by ToNumber / ToPrimitive) and
    objects. *)
Class AbstractOperations : Type := {
  coerced_eq : value -> value -> bool;
  coerced_gt : value -> value -> bool
}.

(** The response-header helpers of [headerUtils.js], which the producer only
    passes around: a fresh header object, and the merge of a second header
    object (possibly undefined) into a first. *)
Class HeaderUtils (Headers : Type) : Type := {
  getInitialHeader : Headers;
  mergeHeaders : Headers -> option Headers -> Headers
}.

(** ** Data model *)

(** A continuation token: [undefined], [null] or an opaque string. *)
Inductive Token : Type :=
| TokUndefined
| TokNull
| TokString (s : string).

(** [a === b] on tokens. *)
Definition token_strict_eq (a b : Token) : bool :=
  match a, b with
  | TokUndefined, TokUndefined => true
  | TokNull, TokNull => true
  | TokString s, TokString t => String.eqb s t
  | _, _ => false
  end.

(** The error object a failed fetch hands to its callback (always truthy). *)
Record FetchError : Type := mkFetchError {
  code : Z;
  body : string
}.

(** A buffered result: a JS object, known by its identity [doc_ref].
    [orderByItems] is [None] when the property is missing. *)
Record Document : Type := mkDocument {
  doc_ref : nat;
  orderByItems : option (list value);
  payload : value
}.

Record PartitionKeyRange : Type := mkPartitionKeyRange {
  id : string;
  minInclusive : string;
  maxExclusive : string
}.

(** What one call of the fetch layer hands to its callback,
    [(err, resources, headerResponse)], and the continuation the layer
    exposes afterwards. *)
Record FetchResult (Headers : Type) : Type := mkFetchResult {
  fetch_err : option FetchError;
  fetch_resources : option (list Document);
  fetch_headers : Headers;
  fetch_continuation : Token
}.

(** The injected page-fetch function: the result of its n-th call. *)
Class PageFetch (Headers : Type) : Type :=
  fetchFunction : nat -> FetchResult Headers.

(** Modelled from the spec: [DefaultQueryExecutionContext] is not part of this
    file.  It is the injected page-fetch abstraction: each [fetchMore] calls
    the callback exactly once with [(error, items-or-absent, metadata)], and
    the object exposes a readable [continuation].  [fetches] counts the
    calls made so far. *)
Record ExecutionContext : Type := mkExecutionContext {
  continuation : Token;
  fetches : nat
}.

Record DocumentProducer (Headers : Type) : Type := mkDocumentProducer {
  targetPartitionKeyRange : PartitionKeyRange;
  itemsBuffer : list Document;
  allFetched : bool;
  err : option FetchError;
  previousContinuationToken : Token;
  continuationToken : Token;
  _respHeaders : Headers;
  internalExecutionContext : ExecutionContext
}.

(** [assert.equal(a, b)] on two buffer reads: [a == b], where [undefined]
    equals only itself and two objects are equal when they are the same
    object. *)
Definition loose_eq (a b : option Document) : bool :=
  match a, b with
  | None, None => true
  | Some x, Some y => Nat.eqb (doc_ref x) (doc_ref y)
  | _, _ => false
  end.

(** ** The producer *)

Section Producer.

Context {Headers : Type} {HU : HeaderUtils Headers} {PF : PageFetch Headers}.

Definition set_itemsBuffer (this : DocumentProducer Headers) (b : list Document)
  : DocumentProducer Headers :=
  {| targetPartitionKeyRange := targetPartitionKeyRange this;
     itemsBuffer := b;
     allFetched := allFetched this;
     err := err this;
     previousContinuationToken := previousContinuationToken this;
     continuationToken := continuationToken this;
     _respHeaders := _respHeaders this;
     internalExecutionContext := internalExecutionContext this |}.

Definition set_allFetched (this : DocumentProducer Headers) (b : bool)
  : DocumentProducer Headers :=
  {| targetPartitionKeyRange := targetPartitionKeyRange this;
     itemsBuffer := itemsBuffer this;
     allFetched := b;
     err := err this;
     previousContinuationToken := previousContinuationToken this;
     continuationToken := continuationToken this;
     _respHeaders := _respHeaders this;
     internalExecutionContext := internalExecutionContext this |}.

Definition set_err (this : DocumentProducer Headers) (e : option FetchError)
  : DocumentProducer Headers :=
  {| targetPartitionKeyRange := targetPartitionKeyRange this;
     itemsBuffer := itemsBuffer this;
     allFetched := allFetched this;
     err := e;
     previousContinuationToken := previousContinuationToken this;
     continuationToken := continuationToken this;
     _respHeaders := _respHeaders this;
     internalExecutionContext := internalExecutionContext this |}.

Definition set_tokens (this : DocumentProducer Headers) (previous current : Token)
  : DocumentProducer Headers :=
  {| targetPartitionKeyRange := targetPartitionKeyRange this;
     itemsBuffer := itemsBuffer this;
     allFetched := allFetched this;
     err := err this;
     previousContinuationToken := previous;
     continuationToken := current;
     _respHeaders := _respHeaders this;
     internalExecutionContext := internalExecutionContext this |}.

Definition set_respHeaders (this : DocumentProducer Headers) (h : Headers)
  : DocumentProducer Headers :=
  {| targetPartitionKeyRange := targetPartitionKeyRange this;
     itemsBuffer := itemsBuffer this;
     allFetched := allFetched this;
     err := err this;
     previousContinuationToken := previousContinuationToken this;
     continuationToken := continuationToken this;
     _respHeaders := h;
     internalExecutionContext := internalExecutionContext this |}.

Definition set_internalExecutionContext (this : DocumentProducer Headers) (c : ExecutionContext)
  : DocumentProducer Headers :=
  {| targetPartitionKeyRange := targetPartitionKeyRange this;
     itemsBuffer := itemsBuffer this;
     allFetched := allFetched this;
     err := err this;
     previousContinuationToken := previousContinuationToken this;
     continuationToken := continuationToken this;
     _respHeaders := _respHeaders this;
     internalExecutionContext := c |}.

(** The constructor: empty buffer, nothing fetched, no error, both tokens
    undefined, fresh headers. *)
Definition newDocumentProducer (range : PartitionKeyRange) (ctx : ExecutionContext)
  : DocumentProducer Headers :=
  {| targetPartitionKeyRange := range;
     itemsBuffer := [];
     allFetched := false;
     err := None;
     previousContinuationToken := TokUndefined;
     continuationToken := TokUndefined;
     _respHeaders := getInitialHeader;
     internalExecutionContext := ctx |}.

(** Modelled from the spec: [internalExecutionContext.fetchMore(callback)],
    whose code is not part of this file.  The call consumes the next result
    of the injected fetch function and leaves its continuation readable. *)
Definition fetchMore (ctx : ExecutionContext) : FetchResult Headers * ExecutionContext :=
  let r := fetchFunction (fetches ctx) in
  (r, {| continuation := fetch_continuation r; fetches := S (fetches ctx) |}).

Definition peekBufferedItems (this : DocumentProducer Headers) : list Document :=
  itemsBuffer this.

Definition getTargetParitionKeyRange (this : DocumentProducer Headers) : PartitionKeyRange :=
  targetPartitionKeyRange this.

Definition _getAndResetActiveResponseHeaders (this : DocumentProducer Headers)
  : Headers * DocumentProducer Headers :=
  let ret := _respHeaders this in
  (ret, set_respHeaders this getInitialHeader).

Definition _updateStates (this : DocumentProducer Headers)
           (err : option FetchError) (allFetched : bool)
  : DocumentProducer Headers :=
  match err with
  | Some e => set_err this (Some e)
  | None =>
      let this := if allFetched then set_allFetched this true else this in
      if token_strict_eq (continuation (internalExecutionContext this)) (continuationToken this)
      then this (* nothing changed *)
      else set_tokens this (continuationToken this) (continuation (internalExecutionContext this))
  end.

Definition consumeBufferedItems (this : DocumentProducer Headers)
  : list Document * DocumentProducer Headers :=
  let res := itemsBuffer this in
  let this := set_itemsBuffer this [] in
  let this :=
    _updateStates this None
      (token_strict_eq (continuationToken this) TokNull
       || token_strict_eq (continuationToken this) TokUndefined) in
  (res, this).

(** The arguments [bufferMore] passes to its callback. *)
Definition PageArgs : Type :=
  option FetchError * option (list Document) * option Headers.

(** The arguments [current] and [nextItem] pass to their callback. *)
Definition ItemArgs : Type :=
  option FetchError * option Document * option Headers.

Definition bufferMore (this : DocumentProducer Headers) : PageArgs * DocumentProducer Headers :=
  match err this with
  | Some e => ((Some e, None, None), this)
  | None =>
      let (r, ctx) := fetchMore (internalExecutionContext this) in
      let this := set_internalExecutionContext this ctx in
      let this :=
        _updateStates this (fetch_err r)
          (match fetch_resources r with None => true | Some _ => false end) in
      match fetch_err r with
      | Some e => ((Some e, None, Some (fetch_headers r)), this)
      | None =>
          let this :=
            match fetch_resources r with
            | Some resources => set_itemsBuffer this (itemsBuffer this ++ resources)
            | None => this
            end in
          ((None, fetch_resources r, Some (fetch_headers r)), this)
      end
  end.

(** [current] calls itself again after each refill that brought a page;
    [fuel] bounds the number of such re-entries, and [None] is the answer
    of a run that needs more. *)
Fixpoint current (fuel : nat) (this : DocumentProducer Headers)
  : option (ItemArgs * DocumentProducer Headers) :=
  match itemsBuffer this with
  | item :: _ =>
      let (headers, this) := _getAndResetActiveResponseHeaders this in
      Some ((None, Some item, Some headers), this)
  | [] =>
      if allFetched this then
        let (headers, this) := _getAndResetActiveResponseHeaders this in
        Some ((None, None, Some headers), this)
      else
        let '((err, items, headers), this) := bufferMore this in
        match err with
        | Some e => Some ((Some e, None, headers), this)
        | None =>
            match items with
            | None => Some ((None, None, headers), this)
            | Some _ =>
                let this := set_respHeaders this (mergeHeaders (_respHeaders this) headers) in
                match fuel with
                | O => None
                | S fuel' => current fuel' this
                end
            end
        end
  end.

(** [nextItem]: the callback is reached with its arguments, or the identity
    assertion throws after the shift. *)
Definition nextItem (fuel : nat) (this : DocumentProducer Headers)
  : option (completion ItemArgs * DocumentProducer Headers) :=
  match err this with
  | Some e => Some (Returned (Some e, None, None), this)
  | None =>
      match current fuel this with
      | None => None
      | Some ((Some e, _, headers), this) => Some (Returned (Some e, None, headers), this)
      | Some ((None, item, headers), this) =>
          let extracted := hd_error (itemsBuffer this) in
          let this := set_itemsBuffer this (tl (itemsBuffer this)) in
          if loose_eq extracted item
          then Some (Returned (None, item, headers), this)
          else Some (Threw (AssertionError None), this)
      end
  end.

(** [n] calls of [bufferMore] in a row; the callback arguments are dropped. *)
Fixpoint bufferMoreTimes (n : nat) (this : DocumentProducer Headers) : DocumentProducer Headers :=
  match n with
  | O => this
  | S n' => bufferMoreTimes n' (snd (bufferMore this))
  end.

(** The items one successful fetch appends to the buffer, and the items the
    next [n] fetches after [ctx] append one after the other. *)
Definition pageItems (r : FetchResult Headers) : list Document :=
  match fetch_resources r with
  | Some resources => resources
  | None => []
  end.

Definition refilledItems (n : nat) (ctx : ExecutionContext) : list Document :=
  List.concat (map (fun k => pageItems (fetchFunction (fetches ctx + k))) (seq 0 n)).

(** [createTargetPartitionKeyRangeComparator]: [a == b ? 0 : (a > b ? 1 : -1)]
    on the two [minInclusive] strings. *)
Definition createTargetPartitionKeyRangeComparator (docProd1 docProd2 : DocumentProducer Headers)
  : Z :=
  let a := minInclusive (getTargetParitionKeyRange docProd1) in
  let b := minInclusive (getTargetParitionKeyRange docProd2) in
  if String.eqb a b then 0%Z else if String.ltb b a then 1%Z else (-1)%Z.

End Producer.

(** ** The order-by comparator *)

Section OrderByDocumentProducerComparator.

Context {Headers : Type} {AO : AbstractOperations}.

(** [a == b] and [a > b] as the three comparison functions use them: both
    operands booleans, both numbers or both strings are evaluated here, and
    undefined and null are loosely equal to each other and to nothing else. *)
Definition js_eq (a b : value) : bool :=
  match a, b with
  | VBool x, VBool y => Bool.eqb x y
  | VNumber x, VNumber y => PrimFloat.eqb x y
  | VString x, VString y => String.eqb x y
  | (VUndefined | VNull), (VUndefined | VNull) => true
  | (VUndefined | VNull), _ => false
  | _, (VUndefined | VNull) => false
  | _, _ => coerced_eq a b
  end.

Definition js_gt (a b : value) : bool :=
  match a, b with
  | VBool x, VBool y => x && negb y
  | VNumber x, VNumber y => PrimFloat.ltb y x
  | VString x, VString y => String.ltb y x
  | _, _ => coerced_gt a b
  end.

(** The body shared by the three [compFunc] entries. *)
Definition compFunc_body (a b : value) : Z :=
  if js_eq a b then 0%Z else if js_gt a b then 1%Z else (-1)%Z.

Record TypeOrd : Type := mkTypeOrd {
  ord : Z;
  compFunc : option (value -> value -> Z)
}.

(** [this._typeOrdComparator[type]]; [None] when the frozen table has no such
    entry. *)
Definition _typeOrdComparator (type : TypeName) : option TypeOrd :=
  match type with
  | NoValue => Some {| ord := 0; compFunc := None |}
  | Tundefined => Some {| ord := 1; compFunc := None |}
  | Tboolean => Some {| ord := 2; compFunc := Some compFunc_body |}
  | Tnumber => Some {| ord := 4; compFunc := Some compFunc_body |}
  | Tstring => Some {| ord := 5; compFunc := Some compFunc_body |}
  | _ => None
  end.

(** [key in this._typeOrdComparator]. *)
Definition in_typeOrdComparator (key : string) : bool :=
  existsb (String.eqb key) ["NoValue"; "undefined"; "boolean"; "number"; "string"].

Definition _throwIf (condition : bool) (msg : string) : completion unit :=
  if condition then Threw (Error msg) else Returned tt.

(** [util.format("Expected %s, but got %s.", type1, type2)]; a variable not
    assigned yet prints as undefined. *)
Definition format_expected (type1 type2 : option TypeName) : string :=
  let show t := match t with Some t => type_name t | None => "undefined" end in
  ("Expected " ++ show type1 ++ ", but got " ++ show type2 ++ ".")%string.

Definition format_unrecognizable (type : TypeName) : string :=
  ("unrecognizable type " ++ type_name type)%string.

(** [getType].  [!'item' in orderByItem] parses as [(!'item') in orderByItem],
    and [!type in this._typeOrdComparator] as
    [(!type) in this._typeOrdComparator].  The operator [in] throws a
    TypeError on a primitive; an array has no property named false or item. *)
Definition getType (orderByItem : value) : completion TypeName :=
  props <- match orderByItem with
           | VObject props => Returned props
           | VArray _ => Returned []
           | _ => Threw TypeError
           end ;;
  if has_property props (key_of_bool (not_string "item")) then Returned NoValue
  else
    let type := typeof (get_property props "item") in
    _throwIf (in_typeOrdComparator (key_of_bool (not_string (type_name type))))
             (format_unrecognizable type) ;;;
    Returned type.

(** The operands [in] accepts: objects and arrays. *)
Definition is_object (v : value) : bool :=
  match v with
  | VObject _ | VArray _ => true
  | _ => false
  end.


(** The kinds the frozen table ranks. *)
Definition ranked (type : TypeName) : bool :=
  match _typeOrdComparator type with
  | Some _ => true
  | None => false
  end.

(** [orderByItem['item']], read after [getType] has accepted the operand. *)
Definition item_of (orderByItem : value) : value :=
  match orderByItem with
  | VObject props => get_property props "item"
  | _ => VUndefined
  end.

Definition compareValue (item1 : value) (type1 : TypeName) (item2 : value) (type2 : TypeName)
  : completion Z :=
  e1 <- match _typeOrdComparator type1 with Some e => Returned e | None => Threw TypeError end ;;
  let type1Ord := ord e1 in
  e2 <- match _typeOrdComparator type2 with Some e => Returned e | None => Threw TypeError end ;;
  let type2Ord := ord e2 in
  let typeCmp := (type1Ord - type2Ord)%Z in
  if negb (typeCmp =? 0)%Z then Returned typeCmp
  else if (type1Ord =? 1)%Z || (type1Ord =? 0)%Z then Returned 0%Z
  else
    match compFunc e1 with
    | None => Threw (AssertionError (Some "cannot find the comparison function"))
    | Some compFunc => Returned (compFunc item1 item2)
    end.

Definition compareOrderByItem (orderByItem1 orderByItem2 : value) : completion Z :=
  type1 <- getType orderByItem1 ;;
  type2 <- getType orderByItem2 ;;
  compareValue (item_of orderByItem1) type1 (item_of orderByItem2) type2.

(** [res['orderByItems']] on the head of a buffer; the head of an empty
    buffer is undefined and the read throws. *)
Definition getOrderByItems (res : option Document) : completion (option (list value)) :=
  match res with
  | Some d => Returned (orderByItems d)
  | None => Threw TypeError
  end.

(** [res.length] and [res[i]] on what [getOrderByItems] returned: the
    length of undefined throws, and an index is read only after the length. *)
Definition length_of (res : option (list value)) : completion nat :=
  match res with
  | Some l => Returned (List.length l)
  | None => Threw TypeError
  end.

Definition elements_of (res : option (list value)) : list value :=
  match res with
  | Some l => l
  | None => []
  end.

Definition at_index (res : list value) (i : nat) : value := nth i res VUndefined.

(** The loop of [validateOrderByItems]: [n] iterations from index [i]. *)
Fixpoint validateTypesFrom (res1 res2 : list value) (n i : nat) : completion unit :=
  match n with
  | O => Returned tt
  | S n' =>
      type1 <- getType (at_index res1 i) ;;
      type2 <- getType (at_index res2 i) ;;
      _throwIf (negb (TypeName_eqb type1 type2)) (format_expected (Some type1) (Some type2)) ;;;
      validateTypesFrom res1 res2 n' (S i)
  end.

Definition validateOrderByItems (sortOrder : list string) (res1 res2 : option (list value))
  : completion unit :=
  len1 <- length_of res1 ;;
  len2 <- length_of res2 ;;
  _throwIf (negb (Nat.eqb len1 len2)) (format_expected None None) ;;;
  _throwIf (negb (Nat.eqb len1 (List.length sortOrder)))
           "orderByItems cannot have a different size than sort orders." ;;;
  validateTypesFrom (elements_of res1) (elements_of res2) (List.length sortOrder) 0.

(** [this.sortOrder[i] === direction]; an index past the end reads undefined. *)
Definition is_direction (entry : option string) (direction : string) : bool :=
  match entry with
  | Some d => String.eqb d direction
  | None => false
  end.

(** The loop of [compare]: [n] iterations from index [i], then the partition
    comparator.  The first component counts the calls of
    [compareOrderByItem]. *)
Fixpoint compareFrom (sortOrder : list string) (res1 res2 : list value) (tie : Z) (n i : nat)
  : nat * completion Z :=
  match n with
  | O => (O, Returned tie)
  | S n' =>
      match compareOrderByItem (at_index res1 i) (at_index res2 i) with
      | Threw e => (1, Threw e)
      | Returned compRes =>
          let continue := let (calls, r) := compareFrom sortOrder res1 res2 tie n' (S i) in
                          (S calls, r) in
          if negb (compRes =? 0)%Z then
            if is_direction (nth_error sortOrder i) "Ascending" then (1, Returned compRes)
            else if is_direction (nth_error sortOrder i) "Descending"
            then (1, Returned (- compRes)%Z)
            else continue
          else continue
      end
  end.

(** [compare], with the number of per-value comparisons it made. *)
Definition compare_counting (sortOrder : list string) (docProd1 docProd2 : DocumentProducer Headers)
  : nat * completion Z :=
  match getOrderByItems (hd_error (peekBufferedItems docProd1)) with
  | Threw e => (O, Threw e)
  | Returned orderByItemsRes1 =>
      match getOrderByItems (hd_error (peekBufferedItems docProd2)) with
      | Threw e => (O, Threw e)
      | Returned orderByItemsRes2 =>
          match validateOrderByItems sortOrder orderByItemsRes1 orderByItemsRes2 with
          | Threw e => (O, Threw e)
          | Returned _ =>
              match length_of orderByItemsRes1 with
              | Threw e => (O, Threw e)
              | Returned len =>
                  compareFrom sortOrder
                    (elements_of orderByItemsRes1) (elements_of orderByItemsRes2)
                    (createTargetPartitionKeyRangeComparator docProd1 docProd2) len 0
              end
          end
      end
  end.

Definition compare (sortOrder : list string) (docProd1 docProd2 : DocumentProducer Headers)
  : completion Z :=
  snd (compare_counting sortOrder docProd1 docProd2).

End OrderByDocumentProducerComparator.

(** ** Sample environments and producers

    Concrete instances on which the statements below are evaluated: headers
    are a request charge, merged by addition. *)

Definition chargeHeaders : HeaderUtils nat :=
  {| getInitialHeader := 0;
     mergeHeaders := fun h more => match more with Some m => h + m | None => h end |}.

Definition noCoercion : AbstractOperations :=
  {| coerced_eq := fun _ _ => false; coerced_gt := fun _ _ => false |}.

Definition docOf (ref : nat) (items : list value) : Document :=
  {| doc_ref := ref; orderByItems := Some items; payload := VObject [] |}.

Definition doc1 : Document := docOf 1 [VObject [("item", VNumber 10)]].
Definition doc2 : Document := docOf 2 [VObject [("item", VNumber 10)]].
Definition doc3 : Document := docOf 3 [VObject [("item", VNumber 20)]].

Definition timeout408 : FetchError := {| code := 408; body := "Request Timeout" |}.

(** A fetch layer that serves two pages and then reports the end of data. *)
Definition twoPages : PageFetch nat :=
  fun n =>
    match n with
    | 0 => {| fetch_err := None; fetch_resources := Some [doc1; doc2];
              fetch_headers := 3; fetch_continuation := TokString "page2" |}
    | 1 => {| fetch_err := None; fetch_resources := Some [doc3];
              fetch_headers := 2; fetch_continuation := TokUndefined |}
    | _ => {| fetch_err := None; fetch_resources := None;
              fetch_headers := 1; fetch_continuation := TokUndefined |}
    end.

(** A fetch layer that serves one page and fails from then on. *)
Definition pageThenFailure : PageFetch nat :=
  fun n =>
    match n with
    | 0 => {| fetch_err := None; fetch_resources := Some [doc1; doc2];
              fetch_headers := 3; fetch_continuation := TokString "page2" |}
    | _ => {| fetch_err := Some timeout408; fetch_resources := None;
              fetch_headers := 1; fetch_continuation := TokString "page2" |}
    end.

Definition range0000 : PartitionKeyRange :=
  {| id := "0"; minInclusive := "0000"; maxExclusive := "3FFF" |}.

Definition range3FFF : PartitionKeyRange :=
  {| id := "1"; minInclusive := "3FFF"; maxExclusive := "FF" |}.

Definition freshContext : ExecutionContext :=
  {| continuation := TokNull; fetches := 0 |}.

(** A producer as the constructor leaves it. *)
Definition freshProducer : DocumentProducer nat :=
  newDocumentProducer (HU := chargeHeaders) range0000 freshContext.

(** The literal order-by items of the cross-type example. *)
Definition docNumber5 : Document := docOf 5 [VObject [("item", VNumber 5)]].
Definition docStringA : Document := docOf 6 [VObject [("item", VString "a")]].


(** A producer of [range] that buffers [items] and nothing else. *)
Definition producerWith (range : PartitionKeyRange) (items : list Document)
  : DocumentProducer nat :=
  set_itemsBuffer (newDocumentProducer (HU := chargeHeaders) range freshContext) items.

(** A producer whose refill failed while [doc2] was still buffered, reached by
    running the code: a first page is buffered, one item is consumed, and
    the next refill fails. *)
Definition afterFailedPrefetch : DocumentProducer nat :=
  let fresh := newDocumentProducer (HU := chargeHeaders) range0000 freshContext in
  let buffered := snd (bufferMore (PF := pageThenFailure) fresh) in
  let consumed :=
    match nextItem (HU := chargeHeaders) (PF := pageThenFailure) 0 buffered with
    | Some (_, this) => this
    | None => buffered
    end in
  snd (bufferMore (PF := pageThenFailure) consumed).

(** A producer whose very first fetch failed: nothing buffered. *)
Definition erroredEmpty : DocumentProducer nat :=
  set_err freshProducer (Some timeout408).

(** An exhausted producer: empty buffer, no error, nothing left to fetch. *)
Definition exhausted : DocumentProducer nat :=
  set_allFetched (producerWith range0000 []) true.

(** ** Runs of several calls, and what the comparator reads *)

Section Runs.

Context {Headers : Type} {HU : HeaderUtils Headers} {PF : PageFetch Headers}.

(** [n] calls of [nextItem] in a row, each of which reaches its callback with
    an item and no error: the items in the order the callbacks got them.
    [None] when one of the calls ends otherwise. *)
Fixpoint nextItemTimes (n fuel : nat) (this : DocumentProducer Headers)
  : option (list Document * DocumentProducer Headers) :=
  match n with
  | O => Some ([], this)
  | S n' =>
      match nextItem fuel this with
      | Some (Returned (None, Some item, _), this) =>
          match nextItemTimes n' fuel this with
          | Some (items, this) => Some (item :: items, this)
          | None => None
          end
      | _ => None
      end
  end.

(** The headers [current] has accumulated in [_respHeaders] after it merged,
    one after the other, the header responses of the [k] fetches from the
    [n]-th on into [headers]. *)
Fixpoint mergedHeaders (k n : nat) (headers : Headers) : Headers :=
  match k with
  | O => headers
  | S k' => mergedHeaders k' (S n) (mergeHeaders headers (Some (fetch_headers (fetchFunction n))))
  end.

(** A fetch result that carries a page without items, [[]]. *)
Definition emptyPage (r : FetchResult Headers) : Prop :=
  fetch_err r = None /\ fetch_resources r = Some [].

(** The projection [compare] reads from a producer,
    [peekBufferedItems()[0]['orderByItems']]: [None] when the buffer is empty
    or the head document has no such property. *)
Definition headProjection (docProd : DocumentProducer Headers) : option (list value) :=
  match hd_error (peekBufferedItems docProd) with
  | Some d => orderByItems d
  | None => None
  end.

End Runs.

Section ComparatorFactory.

Context {Headers : Type} {AO : AbstractOperations}.

(** [createOrderByComparator]: the function handed to the priority queue. *)
Definition createOrderByComparator (sortOrder : list string)
  : DocumentProducer Headers -> DocumentProducer Headers -> completion Z :=
  fun docProd1 docProd2 => compare sortOrder docProd1 docProd2.

End ComparatorFactory.

(** [x == x] on the value of an order-by item: false on NaN alone. *)
Definition self_equal (v : value) : bool :=
  match v with
  | VNumber x => PrimFloat.eqb x x
  | _ => true
  end.

(** A direction the loop of [compare] acts on. *)
Definition known_direction (direction : string) : bool :=
  String.eqb direction "Ascending" || String.eqb direction "Descending".

(** More sample fetch layers: two pages without items, then a page, a
    failure, or the end of data. *)
Definition emptyResult (continuation : string) : FetchResult nat :=
  {| fetch_err := None; fetch_resources := Some [];
     fetch_headers := 1; fetch_continuation := TokString continuation |}.

Definition emptyPagesThenPage : PageFetch nat :=
  fun n =>
    match n with
    | 0 => emptyResult "a"
    | 1 => emptyResult "b"
    | _ => {| fetch_err := None; fetch_resources := Some [doc1; doc2];
              fetch_headers := 5; fetch_continuation := TokUndefined |}
    end.

Definition emptyPagesThenFailure : PageFetch nat :=
  fun n =>
    match n with
    | 0 => emptyResult "a"
    | 1 => emptyResult "b"
    | _ => {| fetch_err := Some timeout408; fetch_resources := None;
              fetch_headers := 5; fetch_continuation := TokString "b" |}
    end.

Definition emptyPagesThenEnd : PageFetch nat :=
  fun n =>
    match n with
    | 0 => emptyResult "a"
    | 1 => emptyResult "b"
    | _ => {| fetch_err := None; fetch_resources := None;
              fetch_headers := 5; fetch_continuation := TokUndefined |}
    end.

(** Sample documents with two sort keys. *)
Definition docAlice30 : Document :=
  docOf 11 [VObject [("item", VString "alice")]; VObject [("item", VNumber 30)]].
Definition docAlice25 : Document :=
  docOf 12 [VObject [("item", VString "alice")]; VObject [("item", VNumber 25)]].
Definition docNull : Document := docOf 13 [VObject [("item", VNull)]].

(** * Properties *)

Unset Implicit Arguments.

Section ProducerProperties.

Context {Headers : Type} {HU : HeaderUtils Headers} {PF : PageFetch Headers}.

Implicit Types this : DocumentProducer Headers.

Lemma token_strict_eq_true (a b : Token) : token_strict_eq a b = true <-> a = b.
Proof.
  destruct a, b; simpl; split; intro H; try discriminate; try reflexivity.
  - apply String.eqb_eq in H. now subst.
  - injection H as ->. apply String.eqb_refl.
Qed.

Lemma token_strict_eq_false (a b : Token) : token_strict_eq a b = false <-> a <> b.
Proof.
  rewrite <- token_strict_eq_true. destruct (token_strict_eq a b); split; congruence.
Qed.

(** A state update without error touches neither the buffer, nor the sticky
    error, nor the fetch layer. *)
Lemma updateStates_frame this flag :
  itemsBuffer (_updateStates this None flag) = itemsBuffer this
  /\ err (_updateStates this None flag) = err this
  /\ internalExecutionContext (_updateStates this None flag) = internalExecutionContext this
  /\ _respHeaders (_updateStates this None flag) = _respHeaders this.
Proof.
  unfold _updateStates.
  destruct flag; simpl;
    match goal with |- context [if ?c then _ else _] => destruct c end; simpl; auto.
Qed.

Lemma current_unfold fuel this :
  current fuel this =
  match itemsBuffer this with
  | item :: _ =>
      Some ((None, Some item, Some (_respHeaders this)), set_respHeaders this getInitialHeader)
  | [] =>
      if allFetched this then
        Some ((None, None, Some (_respHeaders this)), set_respHeaders this getInitialHeader)
      else
        let '((err, items, headers), this1) := bufferMore this in
        match err with
        | Some e => Some ((Some e, None, headers), this1)
        | None =>
            match items with
            | None => Some ((None, None, headers), this1)
            | Some _ =>
                match fuel with
                | O => None
                | S fuel' =>
                    current fuel' (set_respHeaders this1 (mergeHeaders (_respHeaders this1) headers))
                end
            end
        end
  end.
Proof.
  destruct fuel; reflexivity.
Qed.

Lemma bufferMore_sticky this e :
  err this = Some e -> bufferMore this = ((Some e, None, None), this).
Proof.
  intro He. unfold bufferMore. now rewrite He.
Qed.

(** The producer a refill leaves behind when the fetch layer answers [r]:
    the state update, then the page appended. *)
Lemma bufferMore_fetch this :
  err this = None ->
  let r := fetchFunction (fetches (internalExecutionContext this)) in
  let ctx := {| continuation := fetch_continuation r;
                fetches := S (fetches (internalExecutionContext this)) |} in
  let updated :=
    _updateStates (set_internalExecutionContext this ctx) (fetch_err r)
      (match fetch_resources r with None => true | Some _ => false end) in
  bufferMore this =
  match fetch_err r with
  | Some e => ((Some e, None, Some (fetch_headers r)), updated)
  | None =>
      ((None, fetch_resources r, Some (fetch_headers r)),
       match fetch_resources r with
       | Some resources => set_itemsBuffer updated (itemsBuffer updated ++ resources)
       | None => updated
       end)
  end.
Proof.
  intro He. unfold bufferMore, fetchMore. rewrite He. reflexivity.
Qed.

(** A successful refill appends the page and leaves the producer without
    error, one fetch further. *)
Lemma bufferMore_success this :
  err this = None ->
  fetch_err (fetchFunction (fetches (internalExecutionContext this))) = None ->
  itemsBuffer (snd (bufferMore this)) =
    itemsBuffer this ++ pageItems (fetchFunction (fetches (internalExecutionContext this)))
  /\ err (snd (bufferMore this)) = None
  /\ fetches (internalExecutionContext (snd (bufferMore this))) =
       S (fetches (internalExecutionContext this)).
Proof.
  intros He Hf. rewrite (bufferMore_fetch this He). cbv zeta. rewrite Hf.
  unfold pageItems.
  set (r := fetchFunction (fetches (internalExecutionContext this))).
  set (q := set_internalExecutionContext this _).
  destruct (updateStates_frame q
              (match fetch_resources r with Some _ => false | None => true end))
    as (Hb & Herr & Hctx & _).
  assert (Hq : itemsBuffer q = itemsBuffer this /\ err q = None
               /\ fetches (internalExecutionContext q) = S (fetches (internalExecutionContext this))).
  { subst q. cbn. auto. }
  destruct Hq as (Hqb & Hqe & Hqf).
  destruct (fetch_resources r) as [resources|]; cbn [snd].
  - cbn [itemsBuffer err internalExecutionContext set_itemsBuffer].
    rewrite Hb, Herr, Hctx, Hqb, Hqe, Hqf. auto.
  - rewrite Hb, Herr, Hctx, Hqb, Hqe, Hqf, app_nil_r. auto.
Qed.

Lemma bufferMoreTimes_success n : forall this,
  err this = None ->
  (forall k, k < n ->
     fetch_err (fetchFunction (fetches (internalExecutionContext this) + k)) = None) ->
  itemsBuffer (bufferMoreTimes n this) =
    itemsBuffer this ++ refilledItems n (internalExecutionContext this)
  /\ err (bufferMoreTimes n this) = None.
Proof.
  induction n as [|n IH]; intros this He Hok.
  - unfold refilledItems. simpl. rewrite app_nil_r. auto.
  - assert (H0 : fetch_err (fetchFunction (fetches (internalExecutionContext this))) = None).
    { specialize (Hok 0 ltac:(lia)). now rewrite Nat.add_0_r in Hok. }
    destruct (bufferMore_success this He H0) as (Hb & Herr & Hfetches).
    simpl bufferMoreTimes.
    destruct (IH (snd (bufferMore this)) Herr) as (IHb & IHe).
    { intros k Hk. rewrite Hfetches.
      replace (S (fetches (internalExecutionContext this)) + k)
        with (fetches (internalExecutionContext this) + S k) by lia.
      apply Hok. lia. }
    split; [|exact IHe].
    rewrite IHb, Hb, <- app_assoc. f_equal.
    unfold refilledItems. rewrite Hfetches. cbn [seq map List.concat].
    rewrite <- seq_shift, map_map, Nat.add_0_r. do 2 f_equal.
    apply map_ext. intro k. do 2 f_equal. lia.
Qed.

(** What [current] answers without touching the fetch layer. *)
Lemma current_buffered fuel this item rest :
  itemsBuffer this = item :: rest ->
  current fuel this =
  Some ((None, Some item, Some (_respHeaders this)), set_respHeaders this getInitialHeader).
Proof.
  intro Hb. rewrite current_unfold, Hb. reflexivity.
Qed.

Lemma current_exhausted fuel this :
  itemsBuffer this = [] -> allFetched this = true ->
  current fuel this =
  Some ((None, None, Some (_respHeaders this)), set_respHeaders this getInitialHeader).
Proof.
  intros Hb Ha. rewrite current_unfold, Hb, Ha. reflexivity.
Qed.

(** An item handed out by [current] is the head of the buffer it leaves. *)
Lemma current_item_is_head fuel : forall this item headers this',
  current fuel this = Some ((None, Some item, headers), this') ->
  exists rest, itemsBuffer this' = item :: rest.
Proof.
  induction fuel as [|fuel IH]; intros this item headers this' H;
    rewrite current_unfold in H;
    (destruct (itemsBuffer this) as [|head rest] eqn:Hb;
     [ destruct (allFetched this); [discriminate|];
       destruct (bufferMore this) as [[[e items] h] this1];
       destruct e; [discriminate|]; destruct items; [|discriminate]
     | injection H as <- _ <-; exists rest; exact Hb ]).
  - discriminate.
  - eapply IH. exact H.
Qed.

(** C8 (frame_effect): after a state update without error, a fetch layer
    whose continuation equals the recorded continuation token leaves both
    the continuation token and the previous token unchanged; when it
    differs, the previous token becomes the old continuation token and the
    continuation token becomes the fetch layer's value. *)
Theorem updateStates_cursor_bookkeeping this flag :
  (continuation (internalExecutionContext this) = continuationToken this ->
     continuationToken (_updateStates this None flag) = continuationToken this
     /\ previousContinuationToken (_updateStates this None flag) = previousContinuationToken this)
  /\ (continuation (internalExecutionContext this) <> continuationToken this ->
     previousContinuationToken (_updateStates this None flag) = continuationToken this
     /\ continuationToken (_updateStates this None flag)
        = continuation (internalExecutionContext this)).
Proof.
  unfold _updateStates. split; intro H.
  - apply token_strict_eq_true in H.
    destruct flag; cbn; rewrite H; auto.
  - apply token_strict_eq_false in H.
    destruct flag; cbn; rewrite H; auto.
Qed.

(** C3 (functional_correctness): after [n] successful refills of a producer
    whose buffer was empty, one call of [consumeBufferedItems] returns the
    appended items, page after page in fetch order, and leaves the buffer
    empty. *)
Theorem consumeBufferedItems_drains_refills n this :
  err this = None ->
  itemsBuffer this = [] ->
  (forall k, k < n ->
     fetch_err (fetchFunction (fetches (internalExecutionContext this) + k)) = None) ->
  fst (consumeBufferedItems (bufferMoreTimes n this))
    = refilledItems n (internalExecutionContext this)
  /\ itemsBuffer (snd (consumeBufferedItems (bufferMoreTimes n this))) = [].
Proof.
  intros He Hb Hok.
  destruct (bufferMoreTimes_success n this He Hok) as (Hitems & _).
  rewrite Hb in Hitems. unfold consumeBufferedItems. cbn [fst snd]. split.
  - exact Hitems.
  - match goal with |- itemsBuffer (_updateStates ?q None ?f) = _ =>
      destruct (updateStates_frame q f) as (Hq & _); rewrite Hq end.
    reflexivity.
Qed.

(** C1 (error_handling), as the code has it: once the sticky error [e] is
    set, [bufferMore] and [nextItem] hand [e] to their callback whatever the
    buffer holds, and [current] does so when the buffer is empty and the
    producer is not exhausted; the producer is left as it was.  No call of
    [current] reaches the fetch layer either. *)
Theorem sticky_error_short_circuits this e :
  err this = Some e ->
  bufferMore this = ((Some e, None, None), this)
  /\ (forall fuel, nextItem fuel this = Some (Returned (Some e, None, None), this))
  /\ (forall fuel, itemsBuffer this = [] -> allFetched this = false ->
        current fuel this = Some ((Some e, None, None), this))
  /\ (forall fuel, exists args this',
        current fuel this = Some (args, this')
        /\ internalExecutionContext this' = internalExecutionContext this).
Proof.
  intro He. pose proof (bufferMore_sticky this e He) as Hbm.
  split; [exact Hbm|]. split; [|split].
  - intro fuel. unfold nextItem. now rewrite He.
  - intros fuel Hb Ha. rewrite current_unfold, Hb, Ha, Hbm. reflexivity.
  - intro fuel. rewrite current_unfold.
    destruct (itemsBuffer this) as [|item rest].
    + destruct (allFetched this).
      * eexists _, _. split; reflexivity.
      * rewrite Hbm. eexists _, _. split; reflexivity.
    + eexists _, _. split; reflexivity.
Qed.

(** C4 (invariants): when [nextItem] reaches its callback without error and
    with an item, that item is the one [current] had just handed out, it was
    the head of the buffer [current] left, and [nextItem] leaves exactly the
    rest of that buffer, in order.  On a producer without error whose buffer
    is not empty the call does complete, with the head of the buffer; and
    after a call of [current] that handed out an item, [nextItem] on the
    producer it left removes that very item. *)
Theorem nextItem_removes_observed_head fuel this :
  (forall item headers this',
     nextItem fuel this = Some (Returned (None, Some item, headers), this') ->
     exists observed,
       current fuel this = Some ((None, Some item, headers), observed)
       /\ itemsBuffer observed = item :: itemsBuffer this'
       /\ this' = set_itemsBuffer observed (itemsBuffer this')
       /\ (itemsBuffer this <> [] -> itemsBuffer this = item :: itemsBuffer this'))
  /\ (forall item rest,
     err this = None -> itemsBuffer this = item :: rest ->
     exists this',
       nextItem fuel this = Some (Returned (None, Some item, Some (_respHeaders this)), this')
       /\ itemsBuffer this' = rest)
  /\ (forall fuel' item headers observed,
     current fuel this = Some ((None, Some item, headers), observed) ->
     err observed = None ->
     exists this',
       nextItem fuel' observed
         = Some (Returned (None, Some item, Some (_respHeaders observed)), this')
       /\ itemsBuffer observed = item :: itemsBuffer this').
Proof.
  assert (Hbuffered : forall fuel0 (p : DocumentProducer Headers) item rest,
            err p = None -> itemsBuffer p = item :: rest ->
            exists this',
              nextItem fuel0 p = Some (Returned (None, Some item, Some (_respHeaders p)), this')
              /\ itemsBuffer this' = rest).
  { intros fuel0 p item rest He Hb. unfold nextItem.
    rewrite He, (current_buffered fuel0 p _ _ Hb). cbn. rewrite Hb. cbn.
    rewrite Nat.eqb_refl. eexists. split; reflexivity. }
  split; [|split].
  - intros item headers this' H. unfold nextItem in H.
    destruct (err this) as [e|] eqn:He; [discriminate|].
    destruct (current fuel this) as [[[[e it] h] observed]|] eqn:Hc; [|discriminate].
    destruct e as [e|]; [discriminate|].
    destruct (loose_eq (hd_error (itemsBuffer observed)) it) eqn:Heq; [|discriminate].
    injection H as -> -> <-.
    destruct (current_item_is_head _ _ _ _ _ Hc) as (rest & Hrest).
    exists observed. rewrite Hrest. cbn. repeat split.
    intro Hne. destruct (itemsBuffer this) as [|head tail] eqn:Hb; [congruence|].
    rewrite (current_buffered fuel this _ _ Hb) in Hc.
    injection Hc as _ _ <-. cbn in Hrest. rewrite Hb in Hrest. exact Hrest.
  - intros item rest He Hb. exact (Hbuffered fuel this item rest He Hb).
  - intros fuel' item headers observed Hc He.
    destruct (current_item_is_head _ _ _ _ _ Hc) as (rest & Hrest).
    destruct (Hbuffered fuel' observed item rest He Hrest) as (this' & Hn & Hb).
    exists this'. split; [exact Hn|]. now rewrite Hrest, Hb.
Qed.

(** C10 (error_handling): on a producer with an empty buffer, no sticky error
    and the exhaustion flag set, [nextItem] reaches its callback with no
    error and an undefined item; the identity assertion compares undefined
    with undefined and passes, and the buffer stays empty. *)
Theorem nextItem_on_exhausted fuel this :
  itemsBuffer this = [] ->
  err this = None ->
  allFetched this = true ->
  exists this',
    nextItem fuel this = Some (Returned (None, None, Some (_respHeaders this)), this')
    /\ loose_eq (hd_error (itemsBuffer this)) None = true
    /\ itemsBuffer this' = [].
Proof.
  intros Hb He Ha. unfold nextItem.
  rewrite He, (current_exhausted fuel this Hb Ha). cbn. rewrite Hb. cbn.
  eexists. repeat split.
Qed.

End ProducerProperties.

Section ComparatorProperties.

Context {Headers : Type} {AO : AbstractOperations}.

Implicit Types docProd : DocumentProducer Headers.

(** The condition of the second [_throwIf] of [getType] is false for every
    type name: the key tested is the string false. *)
Lemma unrecognizable_check_never_fires (type : TypeName) :
  in_typeOrdComparator (key_of_bool (not_string (type_name type))) = false.
Proof.
  destruct type; reflexivity.
Qed.

Lemma getType_of_properties (props : list (string * value)) :
  getType (VObject props) =
  if has_property props "false" then Returned NoValue
  else Returned (typeof (get_property props "item")).
Proof.
  unfold getType. cbn [bind].
  change (key_of_bool (not_string "item")) with "false".
  destruct (has_property props "false"); [reflexivity|].
  rewrite unrecognizable_check_never_fires. reflexivity.
Qed.

Lemma getType_returns_or_TypeError (v : value) :
  (exists type, getType v = Returned type) \/ getType v = Threw TypeError.
Proof.
  destruct v; try (right; reflexivity).
  - left. rewrite getType_of_properties. destruct (has_property props "false"); eauto.
  - left. exists Tundefined. reflexivity.
Qed.

Lemma getType_of_object (v : value) :
  is_object v = true -> exists type, getType v = Returned type.
Proof.
  intro H. destruct (getType_returns_or_TypeError v) as [Ht|Ht]; [exact Ht|].
  destruct v; try discriminate H.
  - rewrite getType_of_properties in Ht. destruct (has_property props "false"); discriminate.
  - discriminate Ht.
Qed.


Lemma TypeName_eqb_true (a b : TypeName) : TypeName_eqb a b = true <-> a = b.
Proof.
  destruct a, b; cbn; split; intro H; congruence.
Qed.

(** Different types are told apart by their ranks alone. *)
Lemma compareValue_different_types
      (item1 item2 : value) (type1 type2 : TypeName) (e1 e2 : TypeOrd) :
  _typeOrdComparator type1 = Some e1 ->
  _typeOrdComparator type2 = Some e2 ->
  type1 <> type2 ->
  compareValue item1 type1 item2 type2 = Returned (ord e1 - ord e2)%Z
  /\ (ord e1 - ord e2 <> 0)%Z.
Proof.
  intros H1 H2 Hne. unfold compareValue. rewrite H1, H2. cbn [bind].
  destruct type1, type2; try congruence; try discriminate;
    injection H1 as <-; injection H2 as <-; cbn; split; (reflexivity || lia).
Qed.

Lemma compareValue_missing (item1 item2 : value) (type : TypeName) :
  type = NoValue \/ type = Tundefined ->
  compareValue item1 type item2 type = Returned 0%Z.
Proof.
  intros [-> | ->]; reflexivity.
Qed.

(** Two operands that compare equal were given the same type. *)
Lemma compareOrderByItem_zero_same_type (a b : value) :
  compareOrderByItem a b = Returned 0%Z ->
  exists type, getType a = Returned type /\ getType b = Returned type.
Proof.
  unfold compareOrderByItem. intro H.
  destruct (getType a) as [type1|] eqn:Ha; [|discriminate].
  destruct (getType b) as [type2|] eqn:Hb; [|discriminate].
  cbn [bind] in H. exists type1. split; [reflexivity|]. f_equal.
  destruct (_typeOrdComparator type1) as [e1|] eqn:H1;
    [|unfold compareValue in H; now rewrite H1 in H].
  destruct (_typeOrdComparator type2) as [e2|] eqn:H2;
    [|unfold compareValue in H; now rewrite H1, H2 in H].
  destruct type1, type2; try reflexivity; try discriminate;
    (destruct (compareValue_different_types (item_of a) (item_of b) _ _ e1 e2 H1 H2) as (Hc & Hnz);
     [discriminate | rewrite H in Hc; injection Hc as Hc; lia]).
Qed.

Lemma compareOrderByItem_no_Error (a b : value) (msg : string) :
  compareOrderByItem a b <> Threw (Error msg).
Proof.
  unfold compareOrderByItem.
  destruct (getType_returns_or_TypeError a) as [(type1 & ->)| ->]; [|discriminate].
  destruct (getType_returns_or_TypeError b) as [(type2 & ->)| ->]; [|discriminate].
  cbn [bind]. unfold compareValue.
  destruct (_typeOrdComparator type1) as [e1|]; [|discriminate].
  destruct (_typeOrdComparator type2) as [e2|]; [|discriminate].
  cbn [bind].
  destruct (negb _); [discriminate|].
  destruct (_ || _); [discriminate|].
  destruct (compFunc e1); discriminate.
Qed.

(** The loop of [validateOrderByItems] on positions that agree on the type. *)
Lemma validateTypesFrom_same (res1 res2 : list value) (n : nat) : forall i,
  (forall j, i <= j < i + n ->
     exists type, getType (at_index res1 j) = Returned type
                  /\ getType (at_index res2 j) = Returned type) ->
  validateTypesFrom res1 res2 n i = Returned tt.
Proof.
  induction n as [|n IH]; intros i H; [reflexivity|].
  destruct (H i ltac:(lia)) as (type & Ha & Hb).
  cbn [validateTypesFrom]. rewrite Ha, Hb. cbn [bind].
  replace (TypeName_eqb type type) with true
    by (symmetry; now apply TypeName_eqb_true).
  cbn. apply IH. intros j Hj. apply H. lia.
Qed.

(** The loop of [validateOrderByItems] when some position disagrees. *)
Lemma validateTypesFrom_mismatch (res1 res2 : list value) (n : nat) : forall i,
  (forall j, i <= j < i + n ->
     is_object (at_index res1 j) = true /\ is_object (at_index res2 j) = true) ->
  (exists j type1 type2,
     i <= j < i + n
     /\ getType (at_index res1 j) = Returned type1
     /\ getType (at_index res2 j) = Returned type2
     /\ type1 <> type2) ->
  exists msg, validateTypesFrom res1 res2 n i = Threw (Error msg).
Proof.
  induction n as [|n IH]; intros i Hobj (j & type1 & type2 & Hj & H1 & H2 & Hne); [lia|].
  destruct (Hobj i ltac:(lia)) as (Ho1 & Ho2).
  destruct (getType_of_object _ Ho1) as (t1 & Ht1).
  destruct (getType_of_object _ Ho2) as (t2 & Ht2).
  cbn [validateTypesFrom]. rewrite Ht1, Ht2. cbn [bind].
  destruct (TypeName_eqb t1 t2) eqn:Heq; cbn.
  - apply TypeName_eqb_true in Heq. subst t2.
    apply IH.
    + intros k Hk. apply Hobj. lia.
    + exists j, type1, type2. repeat split; try assumption; try lia.
      destruct (Nat.eq_dec j i) as [->|]; [|lia]. congruence.
  - eexists. reflexivity.
Qed.

(** The loop of [compare] on positions that all compare equal: every
    position is compared and the tie value is returned. *)
Lemma compareFrom_all_equal (sortOrder : list string) (res1 res2 : list value) (tie : Z) (n : nat) :
  forall i,
  (forall j, i <= j < i + n ->
     compareOrderByItem (at_index res1 j) (at_index res2 j) = Returned 0%Z) ->
  compareFrom sortOrder res1 res2 tie n i = (n, Returned tie).
Proof.
  induction n as [|n IH]; intros i H; [reflexivity|].
  cbn [compareFrom]. rewrite (H i ltac:(lia)). cbn.
  rewrite IH; [reflexivity|]. intros j Hj. apply H. lia.
Qed.

Lemma compareFrom_no_Error (sortOrder : list string) (res1 res2 : list value) (tie : Z) (n : nat) :
  forall i msg, snd (compareFrom sortOrder res1 res2 tie n i) <> Threw (Error msg).
Proof.
  induction n as [|n IH]; intros i msg; [discriminate|].
  cbn [compareFrom].
  destruct (compareOrderByItem (at_index res1 i) (at_index res2 i)) as [compRes|e] eqn:Hc.
  - specialize (IH (S i) msg).
    destruct (compareFrom sortOrder res1 res2 tie n (S i)) as [calls r].
    destruct (negb (compRes =? 0)%Z); [|exact IH].
    destruct (is_direction (nth_error sortOrder i) "Ascending"); [discriminate|].
    destruct (is_direction (nth_error sortOrder i) "Descending"); [discriminate|].
    exact IH.
  - cbn [snd]. intro H. injection H as ->.
    exact (compareOrderByItem_no_Error _ _ _ Hc).
Qed.

(** [compare] on two producers whose head documents carry the projections
    [res1] and [res2]: the validation, then the loop. *)
Lemma compare_counting_heads (sortOrder : list string) docProd1 docProd2
      (d1 d2 : Document) (res1 res2 : list value) :
  hd_error (peekBufferedItems docProd1) = Some d1 -> orderByItems d1 = Some res1 ->
  hd_error (peekBufferedItems docProd2) = Some d2 -> orderByItems d2 = Some res2 ->
  compare_counting sortOrder docProd1 docProd2 =
  match validateOrderByItems sortOrder (Some res1) (Some res2) with
  | Threw e => (0, Threw e)
  | Returned _ =>
      compareFrom sortOrder res1 res2
        (createTargetPartitionKeyRangeComparator docProd1 docProd2) (List.length res1) 0
  end.
Proof.
  intros Hd1 Hr1 Hd2 Hr2. unfold compare_counting.
  rewrite Hd1, Hd2. cbn [getOrderByItems]. rewrite Hr1, Hr2. reflexivity.
Qed.

Lemma validateOrderByItems_lengths (sortOrder : list string) (res1 res2 : list value) :
  validateOrderByItems sortOrder (Some res1) (Some res2) =
  if negb (Nat.eqb (List.length res1) (List.length res2))
  then Threw (Error "Expected undefined, but got undefined.")
  else if negb (Nat.eqb (List.length res1) (List.length sortOrder))
  then Threw (Error "orderByItems cannot have a different size than sort orders.")
  else validateTypesFrom res1 res2 (List.length sortOrder) 0.
Proof.
  unfold validateOrderByItems. cbn [length_of bind elements_of].
  destruct (negb (Nat.eqb (List.length res1) (List.length res2))); [reflexivity|].
  cbn [_throwIf bind].
  destruct (negb (Nat.eqb (List.length res1) (List.length sortOrder))); reflexivity.
Qed.

Lemma is_object_at_index (res : list value) (i : nat) :
  Forall (fun v => is_object v = true) res -> i < List.length res ->
  is_object (at_index res i) = true.
Proof.
  intros Hall Hi. unfold at_index.
  rewrite Forall_forall in Hall. apply Hall. now apply nth_In.
Qed.

(** The first test of [getType] is on the key false: an object that has such
    a property, which no order-by item of the service has, is the one operand
    classified ['NoValue']. *)
Remark getType_of_false_property :
  getType (VObject [("false", VNull); ("item", VNumber 5)]) = Returned NoValue.
Proof.
  reflexivity.
Qed.


(** Where [getType] gives both values of a key position the same type and
    that type is ['NoValue'] or ['undefined'], the per-key comparison is 0
    whatever the two values are, and the loop of [compare] makes this one
    comparison and then does what it does from the next position on. *)
Lemma missing_values_compare_equal :
  (forall item1 item2 type, type = NoValue \/ type = Tundefined ->
     compareValue item1 type item2 type = Returned 0%Z)
  /\ (forall a b type, type = NoValue \/ type = Tundefined ->
        getType a = Returned type -> getType b = Returned type ->
        compareOrderByItem a b = Returned 0%Z)
  /\ (forall sortOrder res1 res2 tie n i type, type = NoValue \/ type = Tundefined ->
        getType (at_index res1 i) = Returned type ->
        getType (at_index res2 i) = Returned type ->
        compareFrom sortOrder res1 res2 tie (S n) i
          = let (calls, r) := compareFrom sortOrder res1 res2 tie n (S i) in
            (S calls, r)).
Proof.
  assert (Hitem : forall a b type, type = NoValue \/ type = Tundefined ->
            getType a = Returned type -> getType b = Returned type ->
            compareOrderByItem a b = Returned 0%Z).
  { intros a b type Ht Ha Hb. unfold compareOrderByItem. rewrite Ha, Hb. cbn [bind].
    now apply compareValue_missing. }
  split; [exact compareValue_missing|]. split; [exact Hitem|].
  intros sortOrder res1 res2 tie n i type Ht Ha Hb.
  cbn [compareFrom]. rewrite (Hitem _ _ type Ht Ha Hb). reflexivity.
Qed.

(** C7 (functional_correctness): what the code does on two null values.  A
    null is of [typeof] ['object'], so two heads that carry [{item: null}]
    pass the validation; the rank table has no entry for that type, so the
    per-key comparison throws a TypeError instead of giving 0, whatever the
    other operand is, and [compare] throws instead of going on to the
    partition bounds. *)
Theorem null_values_throw_instead_of_tying :
  getType (VObject [("item", VNull)]) = Returned Tobject
  /\ _typeOrdComparator Tobject = None
  /\ validateOrderByItems ["Ascending"] (orderByItems docNull) (orderByItems docNull)
     = Returned tt
  /\ (forall b, compareOrderByItem (VObject [("item", VNull)]) b = Threw TypeError)
  /\ compare_counting ["Ascending"]
       (producerWith range0000 [docNull]) (producerWith range3FFF [docNull])
     = (1, Threw TypeError)
  /\ compare_counting ["Ascending"]
       (producerWith range0000 [docOf 16 [VObject []]])
       (producerWith range3FFF [docOf 17 [VObject [("item", VUndefined)]]])
     = (1, Returned (-1)%Z).
Proof.
  split; [reflexivity|]. split; [reflexivity|]. split; [reflexivity|].
  split; [|split; reflexivity].
  intro b. unfold compareOrderByItem.
  change (getType (VObject [("item", VNull)])) with (Returned Tobject). cbn [bind].
  destruct (getType_returns_or_TypeError b) as [(type & ->)| ->]; reflexivity.
Qed.


(** C5 (error_handling), as the code has it: for two producers whose heads
    carry projections of objects, projections of different lengths, or of
    different kinds at some position, make [compare] throw a validation
    [Error] before any per-value comparison; and when both projections have
    the length of the sort order and the same kind at every position, the
    validation passes and [compare] throws no [Error]. *)
Theorem compare_validates_projections (sortOrder : list string) docProd1 docProd2
        (d1 d2 : Document) (res1 res2 : list value) :
  hd_error (peekBufferedItems docProd1) = Some d1 -> orderByItems d1 = Some res1 ->
  hd_error (peekBufferedItems docProd2) = Some d2 -> orderByItems d2 = Some res2 ->
  (List.length res1 <> List.length res2 ->
     compare_counting sortOrder docProd1 docProd2
       = (0, Threw (Error "Expected undefined, but got undefined.")))
  /\ (Forall (fun v => is_object v = true) res1 ->
      Forall (fun v => is_object v = true) res2 ->
      (exists i type1 type2,
         i < List.length res1 /\ i < List.length res2
         /\ getType (at_index res1 i) = Returned type1
         /\ getType (at_index res2 i) = Returned type2
         /\ type1 <> type2) ->
      exists msg,
        compare_counting sortOrder docProd1 docProd2 = (0, Threw (Error msg)))
  /\ (List.length res1 = List.length sortOrder ->
      List.length res2 = List.length sortOrder ->
      (forall i, i < List.length sortOrder ->
         exists type, getType (at_index res1 i) = Returned type
                      /\ getType (at_index res2 i) = Returned type) ->
      validateOrderByItems sortOrder (Some res1) (Some res2) = Returned tt
      /\ forall msg, compare sortOrder docProd1 docProd2 <> Threw (Error msg)).
Proof.
  intros Hd1 Hr1 Hd2 Hr2. unfold compare.
  rewrite (compare_counting_heads _ _ _ _ _ _ _ Hd1 Hr1 Hd2 Hr2).
  rewrite validateOrderByItems_lengths.
  split; [|split].
  - intro Hlen. apply Nat.eqb_neq in Hlen. rewrite Hlen. reflexivity.
  - intros Ho1 Ho2 (i & type1 & type2 & Hi1 & Hi2 & Ht1 & Ht2 & Hne).
    destruct (Nat.eqb (List.length res1) (List.length res2)) eqn:H12; cbn [negb];
      [|eexists; reflexivity].
    destruct (Nat.eqb (List.length res1) (List.length sortOrder)) eqn:H1s; cbn [negb];
      [|eexists; reflexivity].
    apply Nat.eqb_eq in H12, H1s.
    destruct (validateTypesFrom_mismatch res1 res2 (List.length sortOrder) 0) as (msg & ->).
    + intros j Hj. split; apply is_object_at_index; auto; lia.
    + exists i, type1, type2. repeat split; auto; lia.
    + eexists. reflexivity.
  - intros H1 H2 Hsame.
    rewrite H1, H2, Nat.eqb_refl. cbn [negb].
    rewrite (validateTypesFrom_same res1 res2 (List.length sortOrder) 0)
      by (intros j Hj; apply Hsame; lia).
    split; [reflexivity|]. intro msg. apply compareFrom_no_Error.
Qed.

(** C2 (functional_correctness), as the code has it: when the two
    projections have one value per sort key and compare equal at every
    position, [compare] returns what the partition comparator returns on the
    two [minInclusive] bounds, whatever the directions in the sort order:
    negative when the first bound is the smaller, positive when it is the
    greater; bounds 0000 and 3FFF give -1. *)
Theorem compare_breaks_ties_on_minInclusive (sortOrder : list string) docProd1 docProd2
        (d1 d2 : Document) (res1 res2 : list value) :
  hd_error (peekBufferedItems docProd1) = Some d1 -> orderByItems d1 = Some res1 ->
  hd_error (peekBufferedItems docProd2) = Some d2 -> orderByItems d2 = Some res2 ->
  List.length res1 = List.length sortOrder ->
  List.length res2 = List.length sortOrder ->
  (forall i, i < List.length sortOrder ->
     compareOrderByItem (at_index res1 i) (at_index res2 i) = Returned 0%Z) ->
  let a := minInclusive (getTargetParitionKeyRange docProd1) in
  let b := minInclusive (getTargetParitionKeyRange docProd2) in
  compare sortOrder docProd1 docProd2
    = Returned (createTargetPartitionKeyRangeComparator docProd1 docProd2)
  /\ (String.ltb a b = true -> compare sortOrder docProd1 docProd2 = Returned (-1)%Z)
  /\ (String.ltb b a = true -> compare sortOrder docProd1 docProd2 = Returned 1%Z)
  /\ (a = b -> compare sortOrder docProd1 docProd2 = Returned 0%Z)
  /\ (a = "0000" -> b = "3FFF" -> compare sortOrder docProd1 docProd2 = Returned (-1)%Z).
Proof.
  intros Hd1 Hr1 Hd2 Hr2 H1 H2 Heq a b.
  assert (Hc : compare sortOrder docProd1 docProd2
               = Returned (createTargetPartitionKeyRangeComparator docProd1 docProd2)).
  { unfold compare.
    rewrite (compare_counting_heads _ _ _ _ _ _ _ Hd1 Hr1 Hd2 Hr2).
    rewrite validateOrderByItems_lengths.
    rewrite H1, H2, Nat.eqb_refl. cbn [negb].
    rewrite (validateTypesFrom_same res1 res2 (List.length sortOrder) 0)
      by (intros j Hj; apply compareOrderByItem_zero_same_type, Heq; lia).
    rewrite compareFrom_all_equal by (intros j Hj; apply Heq; lia).
    reflexivity. }
  rewrite Hc. unfold createTargetPartitionKeyRangeComparator. fold a b.
  split; [reflexivity|].
  assert (Hlt : forall x y, String.ltb x y = true ->
                  String.eqb x y = false /\ String.eqb y x = false /\ String.ltb y x = false).
  { intros x y Hxy. unfold String.ltb in *.
    destruct (String.compare x y) eqn:Hcmp; try discriminate.
    assert (Hne : x <> y).
    { intros ->. pose proof (String.compare_antisym y y) as Ha.
      rewrite Hcmp in Ha. discriminate. }
    rewrite String.compare_antisym, Hcmp. cbn.
    repeat split; apply String.eqb_neq; congruence. }
  split; [|split; [|split]].
  - intro Hab. destruct (Hlt a b Hab) as (-> & _ & ->). reflexivity.
  - intro Hba. destruct (Hlt b a Hba) as (_ & -> & _). rewrite Hba. reflexivity.
  - intros ->. rewrite String.eqb_refl. reflexivity.
  - intros -> ->. reflexivity.
Qed.

End ComparatorProperties.

(** * The statements on concrete producers *)

Lemma updateStates_cursor_bookkeeping_witness :
  (previousContinuationToken (_updateStates freshProducer None false)
        = continuationToken freshProducer
      /\ continuationToken (_updateStates freshProducer None false) = TokNull)
  /\ (continuationToken
        (_updateStates (set_internalExecutionContext freshProducer
                          {| continuation := TokUndefined; fetches := 1 |}) None true)
        = TokUndefined
      /\ previousContinuationToken
           (_updateStates (set_internalExecutionContext freshProducer
                             {| continuation := TokUndefined; fetches := 1 |}) None true)
         = TokUndefined).
Proof.
  split.
  - apply (proj2 (updateStates_cursor_bookkeeping freshProducer false)). discriminate.
  - apply (proj1 (updateStates_cursor_bookkeeping
                    (set_internalExecutionContext freshProducer
                       {| continuation := TokUndefined; fetches := 1 |}) true)).
    reflexivity.
Defined.

Lemma consumeBufferedItems_drains_refills_witness :
  fst (consumeBufferedItems (bufferMoreTimes (PF := twoPages) 3 freshProducer))
    = [doc1; doc2; doc3]
  /\ itemsBuffer (snd (consumeBufferedItems (bufferMoreTimes (PF := twoPages) 3 freshProducer)))
     = [].
Proof.
  apply (consumeBufferedItems_drains_refills (PF := twoPages) 3 freshProducer).
  - reflexivity.
  - reflexivity.
  - intros k Hk. destruct k as [|[|[|k]]]; [reflexivity | reflexivity | reflexivity | lia].
Defined.

(** C1 as worded does not hold of [current]: with the sticky error set and
    [doc2] still buffered, the callback gets [doc2] and no error. *)
Lemma sticky_error_current_counterexample :
  err afterFailedPrefetch = Some timeout408
  /\ itemsBuffer afterFailedPrefetch = [doc2]
  /\ option_map fst (current (HU := chargeHeaders) (PF := pageThenFailure) 0 afterFailedPrefetch)
     = Some (None, Some doc2, Some 0).
Proof.
  repeat split.
Qed.

Lemma sticky_error_short_circuits_witness :
  bufferMore (PF := pageThenFailure) afterFailedPrefetch
    = ((Some timeout408, None, None), afterFailedPrefetch)
  /\ nextItem (HU := chargeHeaders) (PF := pageThenFailure) 2 afterFailedPrefetch
     = Some (Returned (Some timeout408, None, None), afterFailedPrefetch)
  /\ current (HU := chargeHeaders) (PF := pageThenFailure) 2 erroredEmpty
     = Some ((Some timeout408, None, None), erroredEmpty).
Proof.
  destruct (sticky_error_short_circuits (HU := chargeHeaders) (PF := pageThenFailure)
              afterFailedPrefetch timeout408 eq_refl) as (Hrefill & Hnext & _ & _).
  destruct (sticky_error_short_circuits (HU := chargeHeaders) (PF := pageThenFailure)
              erroredEmpty timeout408 eq_refl) as (_ & _ & Hcurrent & _).
  split; [exact Hrefill|]. split; [exact (Hnext 2)|].
  exact (Hcurrent 2 eq_refl eq_refl).
Defined.

Lemma nextItem_removes_observed_head_witness :
  (exists observed,
     current (HU := chargeHeaders) (PF := twoPages) 1 freshProducer
       = Some ((None, Some doc1, Some 3), observed)
     /\ itemsBuffer observed = [doc1; doc2])
  /\ (exists this',
        nextItem (HU := chargeHeaders) (PF := twoPages) 0 (producerWith range0000 [doc1; doc2])
          = Some (Returned (None, Some doc1, Some 0), this')
        /\ itemsBuffer this' = [doc2]).
Proof.
  split.
  - destruct (proj1 (nextItem_removes_observed_head (HU := chargeHeaders) (PF := twoPages)
                       1 freshProducer)
                doc1 (Some 3)
                (set_itemsBuffer
                   (set_respHeaders (snd (bufferMore (PF := twoPages) freshProducer)) 0)
                   [doc2])
                eq_refl) as (observed & Hcurrent & Hbuffer & _).
    exists observed. split; [exact Hcurrent | exact Hbuffer].
  - exact (proj1 (proj2 (nextItem_removes_observed_head (HU := chargeHeaders) (PF := twoPages)
                           0 (producerWith range0000 [doc1; doc2])))
             doc1 [doc2] eq_refl eq_refl).
Defined.

Lemma nextItem_on_exhausted_witness :
  exists this',
    nextItem (HU := chargeHeaders) (PF := twoPages) 0 exhausted
      = Some (Returned (None, None, Some 0), this')
    /\ loose_eq (hd_error (itemsBuffer exhausted)) None = true
    /\ itemsBuffer this' = [].
Proof.
  exact (nextItem_on_exhausted (HU := chargeHeaders) (PF := twoPages) 0 exhausted
           eq_refl eq_refl eq_refl).
Defined.


Lemma missing_values_compare_equal_witness :
  compareValue (AO := noCoercion) (VNumber 5) Tundefined (VString "a") Tundefined = Returned 0%Z
  /\ compareOrderByItem (AO := noCoercion) (VObject []) (VObject [("item", VUndefined)])
     = Returned 0%Z
  /\ compareFrom (AO := noCoercion) ["Descending"; "Ascending"]
       [VObject []; VObject [("item", VBool true)]]
       [VObject [("item", VUndefined)]; VObject [("item", VBool false)]] 0%Z 2 0
     = (2, Returned 1%Z).
Proof.
  destruct (missing_values_compare_equal (AO := noCoercion)) as (Hvalue & Hitem & Hnext).
  split; [|split].
  - apply Hvalue. right. reflexivity.
  - apply (Hitem _ _ Tundefined); [right|..]; reflexivity.
  - rewrite (Hnext ["Descending"; "Ascending"]
               [VObject []; VObject [("item", VBool true)]]
               [VObject [("item", VUndefined)]; VObject [("item", VBool false)]]
               0%Z 1 0 Tundefined (or_intror eq_refl) eq_refl eq_refl).
    reflexivity.
Defined.



(** C2 as worded does not hold for every sort order: two projections of two
    entries each, equal entry by entry, tie at the one key of a one-key sort
    order and at every entry, and [compare] throws the size [Error] instead
    of ranking the producer of bound 0000 first. *)
Lemma tie_under_shorter_sort_order_counterexample :
  orderByItems docAlice30
    = Some [VObject [("item", VString "alice")]; VObject [("item", VNumber 30)]]
  /\ compareOrderByItem (AO := noCoercion)
       (at_index [VObject [("item", VString "alice")]; VObject [("item", VNumber 30)]] 0)
       (at_index [VObject [("item", VString "alice")]; VObject [("item", VNumber 30)]] 0)
     = Returned 0%Z
  /\ compareOrderByItem (AO := noCoercion)
       (at_index [VObject [("item", VString "alice")]; VObject [("item", VNumber 30)]] 1)
       (at_index [VObject [("item", VString "alice")]; VObject [("item", VNumber 30)]] 1)
     = Returned 0%Z
  /\ minInclusive (getTargetParitionKeyRange (producerWith range0000 [docAlice30])) = "0000"
  /\ minInclusive (getTargetParitionKeyRange (producerWith range3FFF [docAlice30])) = "3FFF"
  /\ compare (AO := noCoercion) ["Ascending"]
       (producerWith range0000 [docAlice30]) (producerWith range3FFF [docAlice30])
     = Threw (Error "orderByItems cannot have a different size than sort orders.").
Proof.
  repeat split.
Qed.

(** C5 as worded does not hold in its converse: two projections of the same
    length and the same kinds are still rejected when the sort order has
    another length. *)
Lemma equal_shapes_rejected_counterexample :
  hd_error (peekBufferedItems (producerWith range0000 [doc1])) = Some doc1
  /\ hd_error (peekBufferedItems (producerWith range3FFF [doc2])) = Some doc2
  /\ option_map (@List.length value) (orderByItems doc1)
     = option_map (@List.length value) (orderByItems doc2)
  /\ option_map (map getType) (orderByItems doc1) = Some [Returned Tnumber]
  /\ option_map (map getType) (orderByItems doc2) = Some [Returned Tnumber]
  /\ compare (AO := noCoercion) ["Ascending"; "Descending"]
       (producerWith range0000 [doc1]) (producerWith range3FFF [doc2])
     = Threw (Error "orderByItems cannot have a different size than sort orders.").
Proof.
  repeat split.
Qed.

Lemma compare_validates_projections_witness :
  compare_counting (AO := noCoercion) ["Ascending"]
    (producerWith range0000 [docOf 9 []]) (producerWith range3FFF [doc2])
    = (0, Threw (Error "Expected undefined, but got undefined."))
  /\ (exists msg,
        compare_counting (AO := noCoercion) ["Ascending"]
          (producerWith range0000 [docNumber5]) (producerWith range3FFF [docStringA])
        = (0, Threw (Error msg)))
  /\ (validateOrderByItems ["Descending"] (orderByItems doc1) (orderByItems doc3) = Returned tt
      /\ forall msg,
           compare (AO := noCoercion) ["Descending"]
             (producerWith range0000 [doc1]) (producerWith range3FFF [doc3])
           <> Threw (Error msg)).
Proof.
  split; [|split].
  - apply (proj1 (compare_validates_projections (AO := noCoercion) ["Ascending"]
                    (producerWith range0000 [docOf 9 []]) (producerWith range3FFF [doc2])
                    (docOf 9 []) doc2 _ _ eq_refl eq_refl eq_refl eq_refl)).
    discriminate.
  - apply (proj1 (proj2 (compare_validates_projections (AO := noCoercion) ["Ascending"]
                    (producerWith range0000 [docNumber5]) (producerWith range3FFF [docStringA])
                    docNumber5 docStringA _ _ eq_refl eq_refl eq_refl eq_refl))).
    + repeat constructor.
    + repeat constructor.
    + exists 0, Tnumber, Tstring. repeat split; try (cbn; lia). discriminate.
  - apply (proj2 (proj2 (compare_validates_projections (AO := noCoercion) ["Descending"]
                    (producerWith range0000 [doc1]) (producerWith range3FFF [doc3])
                    doc1 doc3 _ _ eq_refl eq_refl eq_refl eq_refl))).
    + reflexivity.
    + reflexivity.
    + intros i Hi. exists Tnumber. destruct i as [|i]; [split; reflexivity | cbn in Hi; lia].
Defined.

Lemma compare_breaks_ties_on_minInclusive_witness :
  compare (AO := noCoercion) ["Descending"]
    (producerWith range0000 [doc1]) (producerWith range3FFF [doc2]) = Returned (-1)%Z
  /\ compare (AO := noCoercion) ["Descending"]
       (producerWith range3FFF [doc2]) (producerWith range0000 [doc1]) = Returned 1%Z.
Proof.
  split.
  - apply (compare_breaks_ties_on_minInclusive (AO := noCoercion) ["Descending"]
             (producerWith range0000 [doc1]) (producerWith range3FFF [doc2])
             doc1 doc2 _ _ eq_refl eq_refl eq_refl eq_refl eq_refl eq_refl).
    + intros i Hi. destruct i as [|i]; [reflexivity | cbn in Hi; lia].
    + reflexivity.
    + reflexivity.
  - apply (compare_breaks_ties_on_minInclusive (AO := noCoercion) ["Descending"]
             (producerWith range3FFF [doc2]) (producerWith range0000 [doc1])
             doc2 doc1 _ _ eq_refl eq_refl eq_refl eq_refl eq_refl eq_refl).
    + intros i Hi. destruct i as [|i]; [reflexivity | cbn in Hi; lia].
    + reflexivity.
Defined.

(** * Further properties of the producer *)

Section ProducerInvariants.

Context {Headers : Type} {HU : HeaderUtils Headers} {PF : PageFetch Headers}.

Implicit Types this : DocumentProducer Headers.

Lemma updateStates_allFetched this (e : option FetchError) (flag : bool) :
  allFetched (_updateStates this e flag) =
  match e with
  | Some _ => allFetched this
  | None => allFetched this || flag
  end.
Proof.
  unfold _updateStates. destruct e as [e|]; [reflexivity|].
  destruct flag; cbn;
    match goal with |- context [if ?c then _ else _] => destruct c end; cbn;
    auto using orb_true_r, orb_false_r.
  all: symmetry; auto using orb_true_r, orb_false_r.
Qed.

(** A state update without error leaves the producer's continuation token
    equal to the one the fetch layer exposes. *)
Lemma updateStates_token_synced this (flag : bool) :
  continuationToken (_updateStates this None flag)
  = continuation (internalExecutionContext this).
Proof.
  unfold _updateStates.
  destruct flag; cbn;
    match goal with |- context [if ?c then _ else _] => destruct c eqn:Hc end; cbn;
    try reflexivity; apply token_strict_eq_true in Hc; cbn in Hc; congruence.
Qed.

Lemma updateStates_previous this (flag : bool) :
  previousContinuationToken (_updateStates this None flag)
  = if token_strict_eq (continuation (internalExecutionContext this)) (continuationToken this)
    then previousContinuationToken this
    else continuationToken this.
Proof.
  unfold _updateStates.
  destruct flag; cbn;
    destruct (token_strict_eq (continuation (internalExecutionContext this))
                (continuationToken this)); reflexivity.
Qed.

(** What every path of [current] keeps, it keeps as a whole. *)
Lemma current_invariant (P : DocumentProducer Headers -> Prop) :
  (forall p, P p -> P (snd (bufferMore p))) ->
  (forall p h, P p -> P (set_respHeaders p h)) ->
  forall fuel p args p', P p -> current fuel p = Some (args, p') -> P p'.
Proof.
  intros Hrefill Hheaders.
  induction fuel as [|fuel IH]; intros p args p' HP H;
    rewrite current_unfold in H;
    (destruct (itemsBuffer p) as [|head rest];
     [ destruct (allFetched p);
       [ injection H as _ <-; now apply Hheaders
       | pose proof (Hrefill p HP) as HP1;
         destruct (bufferMore p) as [[[e items] h] p1]; cbn [snd] in HP1;
         destruct e; [injection H as _ <-; exact HP1|];
         destruct items; [|injection H as _ <-; exact HP1] ]
     | injection H as _ <-; now apply Hheaders ]).
  - discriminate.
  - eapply IH; [|exact H]. now apply Hheaders.
Qed.

Lemma nextItem_invariant (P : DocumentProducer Headers -> Prop) :
  (forall p, P p -> P (snd (bufferMore p))) ->
  (forall p h, P p -> P (set_respHeaders p h)) ->
  (forall p b, P p -> P (set_itemsBuffer p b)) ->
  forall fuel p r p', P p -> nextItem fuel p = Some (r, p') -> P p'.
Proof.
  intros Hrefill Hheaders Hbuffer fuel p r p' HP H. unfold nextItem in H.
  destruct (err p); [injection H as _ <-; exact HP|].
  destruct (current fuel p) as [[[[e item] h] p1]|] eqn:Hc; [|discriminate].
  pose proof (current_invariant P Hrefill Hheaders fuel p _ p1 HP Hc) as HP1.
  destruct e; [injection H as _ <-; exact HP1|].
  destruct (loose_eq _ _); injection H as _ <-; now apply Hbuffer.
Qed.

Lemma bufferMore_allFetched this :
  allFetched this = true -> allFetched (snd (bufferMore this)) = true.
Proof.
  intro Ha. destruct (err this) as [e|] eqn:He.
  - now rewrite (bufferMore_sticky this e He).
  - rewrite (bufferMore_fetch this He). cbv zeta.
    destruct (fetch_err _); [|destruct (fetch_resources _)];
      cbn [snd allFetched set_itemsBuffer];
      rewrite updateStates_allFetched; cbn; rewrite ?Ha; reflexivity.
Qed.

(** X1: the sticky error is never cleared: [bufferMore], [current],
    [nextItem] and [consumeBufferedItems] all leave it set, and the first
    three also leave the buffer as it is.  So after an error only
    [consumeBufferedItems] can take the buffered items out. *)
Theorem sticky_error_is_permanent this (e : FetchError) :
  err this = Some e ->
  (err (snd (bufferMore this)) = Some e
   /\ itemsBuffer (snd (bufferMore this)) = itemsBuffer this)
  /\ err (snd (consumeBufferedItems this)) = Some e
  /\ (forall fuel args this',
        current fuel this = Some (args, this') ->
        err this' = Some e /\ itemsBuffer this' = itemsBuffer this)
  /\ (forall fuel r this',
        nextItem fuel this = Some (r, this') ->
        err this' = Some e /\ itemsBuffer this' = itemsBuffer this).
Proof.
  intro He.
  assert (Hrefill : forall p, err p = Some e /\ itemsBuffer p = itemsBuffer this ->
            err (snd (bufferMore p)) = Some e
            /\ itemsBuffer (snd (bufferMore p)) = itemsBuffer this).
  { intros p (Hp & Hb). now rewrite (bufferMore_sticky p e Hp). }
  split; [apply Hrefill; auto|]. split; [|split].
  - unfold consumeBufferedItems. cbn [snd].
    match goal with |- err (_updateStates ?q None ?f) = _ =>
      destruct (updateStates_frame q f) as (_ & Hq & _); rewrite Hq end.
    exact He.
  - intros fuel args this' H.
    apply (current_invariant
             (fun p => err p = Some e /\ itemsBuffer p = itemsBuffer this)
             Hrefill (fun p h Hp => Hp) fuel this args this'); auto.
  - intros fuel r this' H. unfold nextItem in H. rewrite He in H.
    injection H as _ <-. auto.
Qed.

(** X2: the exhaustion flag is never reset: once [allFetched] is true it stays
    true through [bufferMore], [consumeBufferedItems], [current] and
    [nextItem]. *)
Theorem exhaustion_is_permanent this :
  allFetched this = true ->
  allFetched (snd (bufferMore this)) = true
  /\ allFetched (snd (consumeBufferedItems this)) = true
  /\ (forall fuel args this', current fuel this = Some (args, this') -> allFetched this' = true)
  /\ (forall fuel r this', nextItem fuel this = Some (r, this') -> allFetched this' = true).
Proof.
  intro Ha. split; [now apply bufferMore_allFetched|]. split; [|split].
  - unfold consumeBufferedItems. cbn [snd]. rewrite updateStates_allFetched. cbn.
    now rewrite Ha.
  - intros fuel args this'.
    apply (current_invariant (fun p => allFetched p = true)
             bufferMore_allFetched (fun p h Hp => Hp)); exact Ha.
  - intros fuel r this'.
    apply (nextItem_invariant (fun p => allFetched p = true)
             bufferMore_allFetched (fun p h Hp => Hp) (fun p b Hp => Hp)); exact Ha.
Qed.

Lemma bufferMoreTimes_sticky (n : nat) this (e : FetchError) :
  err this = Some e -> bufferMoreTimes n this = this.
Proof.
  intro He. induction n as [|n IH]; [reflexivity|].
  cbn [bufferMoreTimes]. now rewrite (bufferMore_sticky this e He).
Qed.

(** X3: a fetch that fails with [e] makes [bufferMore] hand [e] and the
    fetch's headers to the callback and record [e] as the sticky error; the
    cursor bookkeeping is skipped, so buffer, exhaustion flag and both tokens
    are as before, and exactly one fetch was made.  No later run of refills
    changes the producer or fetches again. *)
Theorem failed_fetch_sets_sticky_error this (e : FetchError) :
  err this = None ->
  fetch_err (fetchFunction (fetches (internalExecutionContext this))) = Some e ->
  exists this',
    bufferMore this
      = ((Some e, None,
          Some (fetch_headers (fetchFunction (fetches (internalExecutionContext this))))),
         this')
    /\ err this' = Some e
    /\ itemsBuffer this' = itemsBuffer this
    /\ allFetched this' = allFetched this
    /\ continuationToken this' = continuationToken this
    /\ previousContinuationToken this' = previousContinuationToken this
    /\ fetches (internalExecutionContext this') = S (fetches (internalExecutionContext this))
    /\ forall n, bufferMoreTimes n this' = this'.
Proof.
  intros He Hf. rewrite (bufferMore_fetch this He). cbv zeta. rewrite Hf.
  eexists. split; [reflexivity|]. cbn. repeat split.
  intro n. apply (bufferMoreTimes_sticky n _ e). reflexivity.
Qed.

(** X4: a fetch that reports the end of data (no error, resources undefined)
    makes [bufferMore] set the exhaustion flag and leave the buffer as it is;
    if the buffer is empty, [nextItem] then reaches its callback with no item
    and the producer's accumulated headers, without another fetch. *)
Theorem end_of_data_exhausts this :
  err this = None ->
  fetch_err (fetchFunction (fetches (internalExecutionContext this))) = None ->
  fetch_resources (fetchFunction (fetches (internalExecutionContext this))) = None ->
  exists this',
    bufferMore this
      = ((None, None,
          Some (fetch_headers (fetchFunction (fetches (internalExecutionContext this))))),
         this')
    /\ allFetched this' = true
    /\ itemsBuffer this' = itemsBuffer this
    /\ err this' = None
    /\ (itemsBuffer this = [] ->
        forall fuel, exists this'',
          nextItem fuel this' = Some (Returned (None, None, Some (_respHeaders this)), this'')
          /\ internalExecutionContext this'' = internalExecutionContext this').
Proof.
  intros He Hf Hr. rewrite (bufferMore_fetch this He). cbv zeta. rewrite Hf, Hr.
  set (q := set_internalExecutionContext this _).
  destruct (updateStates_frame q true) as (Hb & Herr & _ & Hh).
  pose proof (updateStates_allFetched q None true) as Ha.
  cbn in Ha. rewrite orb_true_r in Ha.
  eexists. split; [reflexivity|].
  split; [exact Ha|]. split; [exact Hb|]. split; [rewrite Herr; exact He|].
  intros Hempty fuel. unfold nextItem. rewrite Herr. cbn [err q set_internalExecutionContext].
  rewrite He. rewrite (current_exhausted fuel _ (eq_trans Hb Hempty) Ha).
  rewrite Hh. cbn [itemsBuffer set_respHeaders _respHeaders q set_internalExecutionContext].
  rewrite Hb. cbn [itemsBuffer q set_internalExecutionContext]. rewrite Hempty. cbn.
  eexists. split; reflexivity.
Qed.

(** X5: after a refill that did not fail, and after [consumeBufferedItems],
    the producer's continuation token is the one the fetch layer exposes;
    the previous token of a refill is the token before it whenever the token
    changed, and is kept otherwise. *)
Theorem refill_synchronises_tokens this :
  continuationToken (snd (consumeBufferedItems this))
    = continuation (internalExecutionContext this)
  /\ (err this = None ->
      fetch_err (fetchFunction (fetches (internalExecutionContext this))) = None ->
      let r := fetchFunction (fetches (internalExecutionContext this)) in
      continuationToken (snd (bufferMore this)) = fetch_continuation r
      /\ continuation (internalExecutionContext (snd (bufferMore this))) = fetch_continuation r
      /\ (fetch_continuation r <> continuationToken this ->
          previousContinuationToken (snd (bufferMore this)) = continuationToken this)
      /\ (fetch_continuation r = continuationToken this ->
          previousContinuationToken (snd (bufferMore this)) = previousContinuationToken this)).
Proof.
  split.
  - unfold consumeBufferedItems. cbn [snd]. now rewrite updateStates_token_synced.
  - intros He Hf r. rewrite (bufferMore_fetch this He). cbv zeta. rewrite Hf. fold r.
    set (q := set_internalExecutionContext this _).
    set (flag := match fetch_resources r with Some _ => false | None => true end).
    pose proof (updateStates_token_synced q flag) as Htok.
    pose proof (updateStates_previous q flag) as Hprev.
    destruct (updateStates_frame q flag) as (_ & _ & Hctx & _).
    assert (Hgoal :
      continuationToken (_updateStates q None flag) = fetch_continuation r
      /\ continuation (internalExecutionContext (_updateStates q None flag))
         = fetch_continuation r
      /\ (fetch_continuation r <> continuationToken this ->
          previousContinuationToken (_updateStates q None flag) = continuationToken this)
      /\ (fetch_continuation r = continuationToken this ->
          previousContinuationToken (_updateStates q None flag)
          = previousContinuationToken this)).
    { rewrite Htok, Hctx, Hprev. subst q. cbn. repeat split.
      - intro Hne. apply token_strict_eq_false in Hne. now rewrite Hne.
      - intro Heq. apply token_strict_eq_true in Heq. now rewrite Heq. }
    destruct (fetch_resources r); exact Hgoal.
Qed.

(** X6: [consumeBufferedItems] on a producer whose continuation token is still
    undefined or null, as the constructor leaves it, sets the exhaustion
    flag; [current] then answers with no item without ever calling the fetch
    layer.  With a string token the flag is left as it was. *)
Theorem consume_without_token_exhausts this :
  (continuationToken this = TokUndefined \/ continuationToken this = TokNull ->
     allFetched (snd (consumeBufferedItems this)) = true
     /\ forall fuel,
          current fuel (snd (consumeBufferedItems this))
          = Some ((None, None, Some (_respHeaders this)),
                  set_respHeaders (snd (consumeBufferedItems this)) getInitialHeader)
          /\ internalExecutionContext (snd (consumeBufferedItems this))
             = internalExecutionContext this)
  /\ (forall s, continuationToken this = TokString s ->
        allFetched (snd (consumeBufferedItems this)) = allFetched this).
Proof.
  unfold consumeBufferedItems. cbn [snd].
  set (q := set_itemsBuffer this []).
  split.
  - intro Htok.
    assert (Hflag : token_strict_eq (continuationToken q) TokNull
                    || token_strict_eq (continuationToken q) TokUndefined = true).
    { subst q. cbn. destruct Htok as [-> | ->]; reflexivity. }
    rewrite Hflag.
    destruct (updateStates_frame q true) as (Hb & _ & Hctx & Hh).
    pose proof (updateStates_allFetched q None true) as Ha.
    cbn in Ha. rewrite orb_true_r in Ha.
    split; [exact Ha|]. intro fuel.
    rewrite (current_exhausted fuel _ Hb Ha), Hh, Hctx. split; reflexivity.
  - intros s Htok.
    assert (Hflag : token_strict_eq (continuationToken q) TokNull
                    || token_strict_eq (continuationToken q) TokUndefined = false).
    { subst q. cbn. now rewrite Htok. }
    rewrite Hflag, updateStates_allFetched. cbn. apply orb_false_r.
Qed.

(** X7: [current] does not consume: on a buffer that is not empty it hands
    out the head with the accumulated headers and leaves buffer and fetch
    layer as they are; asked again, it hands out the same item, now with
    fresh headers, and changes nothing. *)
Theorem current_does_not_consume this (item : Document) (rest : list Document) (fuel : nat) :
  itemsBuffer this = item :: rest ->
  exists this1,
    current fuel this = Some ((None, Some item, Some (_respHeaders this)), this1)
    /\ itemsBuffer this1 = item :: rest
    /\ internalExecutionContext this1 = internalExecutionContext this
    /\ forall fuel',
         current fuel' this1 = Some ((None, Some item, Some getInitialHeader), this1).
Proof.
  intro Hb. exists (set_respHeaders this getInitialHeader).
  split; [exact (current_buffered fuel this item rest Hb)|].
  split; [exact Hb|]. split; [reflexivity|].
  intro fuel'.
  exact (current_buffered fuel' (set_respHeaders this getInitialHeader) item rest Hb).
Qed.

(** A refill that brings a page: what the callback gets and what the
    producer keeps. *)
Lemma bufferMore_page this (page : list Document) :
  err this = None ->
  fetch_err (fetchFunction (fetches (internalExecutionContext this))) = None ->
  fetch_resources (fetchFunction (fetches (internalExecutionContext this))) = Some page ->
  exists this1,
    bufferMore this
      = ((None, Some page,
          Some (fetch_headers (fetchFunction (fetches (internalExecutionContext this))))),
         this1)
    /\ itemsBuffer this1 = itemsBuffer this ++ page
    /\ allFetched this1 = allFetched this
    /\ err this1 = None
    /\ fetches (internalExecutionContext this1) = S (fetches (internalExecutionContext this))
    /\ _respHeaders this1 = _respHeaders this.
Proof.
  intros He Hf Hr. rewrite (bufferMore_fetch this He). cbv zeta. rewrite Hf, Hr.
  set (q := set_internalExecutionContext this _).
  destruct (updateStates_frame q false) as (Hqb & Hqe & Hqc & Hqh).
  pose proof (updateStates_allFetched q None false) as Hqa.
  rewrite orb_false_r in Hqa. change (allFetched q) with (allFetched this) in Hqa.
  eexists. split; [reflexivity|].
  cbn [itemsBuffer allFetched err internalExecutionContext _respHeaders set_itemsBuffer].
  rewrite Hqb, Hqa, Hqe, Hqc, Hqh. subst q. cbn. auto.
Qed.

(** A refill that meets the end of data. *)
Lemma bufferMore_end this :
  err this = None ->
  fetch_err (fetchFunction (fetches (internalExecutionContext this))) = None ->
  fetch_resources (fetchFunction (fetches (internalExecutionContext this))) = None ->
  exists this1,
    bufferMore this
      = ((None, None,
          Some (fetch_headers (fetchFunction (fetches (internalExecutionContext this))))),
         this1)
    /\ itemsBuffer this1 = itemsBuffer this
    /\ allFetched this1 = true
    /\ err this1 = None
    /\ _respHeaders this1 = _respHeaders this.
Proof.
  intros He Hf Hr. rewrite (bufferMore_fetch this He). cbv zeta. rewrite Hf, Hr.
  set (q := set_internalExecutionContext this _).
  destruct (updateStates_frame q true) as (Hqb & Hqe & _ & Hqh).
  pose proof (updateStates_allFetched q None true) as Hqa.
  rewrite orb_true_r in Hqa.
  eexists. split; [reflexivity|].
  rewrite Hqb, Hqa, Hqe, Hqh. subst q. cbn. auto.
Qed.

(** One re-entry of [current]: a page without items is merged into the
    headers and the next page is asked for. *)
Lemma current_after_empty_page this :
  itemsBuffer this = [] -> allFetched this = false -> err this = None ->
  emptyPage (fetchFunction (fetches (internalExecutionContext this))) ->
  exists this1,
    (forall fuel, current (S fuel) this = current fuel this1)
    /\ itemsBuffer this1 = [] /\ allFetched this1 = false /\ err this1 = None
    /\ fetches (internalExecutionContext this1) = S (fetches (internalExecutionContext this))
    /\ _respHeaders this1
       = mergeHeaders (_respHeaders this)
           (Some (fetch_headers (fetchFunction (fetches (internalExecutionContext this))))).
Proof.
  intros Hb Ha He (Hf & Hr).
  pose proof (bufferMore_fetch this He) as Hbm. cbv zeta in Hbm. rewrite Hf, Hr in Hbm.
  set (r := fetchFunction (fetches (internalExecutionContext this))) in *.
  set (q := set_internalExecutionContext this _) in *.
  destruct (updateStates_frame q false) as (Hqb & Hqe & Hqc & Hqh).
  pose proof (updateStates_allFetched q None false) as Hqa.
  rewrite orb_false_r in Hqa. change (allFetched q) with (allFetched this) in Hqa.
  eexists. split; [|repeat split].
  - intro fuel. rewrite (current_unfold (S fuel) this), Hb, Ha, Hbm. reflexivity.
  - cbn [itemsBuffer set_respHeaders set_itemsBuffer]. rewrite Hqb. subst q. cbn.
    rewrite Hb. reflexivity.
  - cbn [allFetched set_respHeaders set_itemsBuffer]. rewrite Hqa, Ha. reflexivity.
  - cbn [err set_respHeaders set_itemsBuffer]. rewrite Hqe. exact He.
  - cbn [internalExecutionContext set_respHeaders set_itemsBuffer]. rewrite Hqc. reflexivity.
  - cbn [_respHeaders set_respHeaders set_itemsBuffer]. rewrite Hqh. reflexivity.
Qed.

(** [k] pages without items in a row cost [k] re-entries and [k] fetches,
    and leave their headers merged in the producer. *)
Lemma current_skips_empty_pages (k : nat) : forall this,
  itemsBuffer this = [] -> allFetched this = false -> err this = None ->
  (forall j, j < k -> emptyPage (fetchFunction (fetches (internalExecutionContext this) + j))) ->
  exists thisk,
    (forall fuel, current (k + fuel) this = current fuel thisk)
    /\ itemsBuffer thisk = [] /\ allFetched thisk = false /\ err thisk = None
    /\ fetches (internalExecutionContext thisk) = fetches (internalExecutionContext this) + k
    /\ _respHeaders thisk
       = mergedHeaders k (fetches (internalExecutionContext this)) (_respHeaders this).
Proof.
  induction k as [|k IH]; intros this Hb Ha He Hpages.
  - exists this. rewrite Nat.add_0_r. repeat split; auto.
  - assert (H0 : emptyPage (fetchFunction (fetches (internalExecutionContext this)))).
    { specialize (Hpages 0 ltac:(lia)). now rewrite Nat.add_0_r in Hpages. }
    destruct (current_after_empty_page this Hb Ha He H0)
      as (this1 & Hstep & Hb1 & Ha1 & He1 & Hf1 & Hh1).
    destruct (IH this1 Hb1 Ha1 He1) as (thisk & Hrun & Hbk & Hak & Hek & Hfk & Hhk).
    { intros j Hj. rewrite Hf1.
      replace (S (fetches (internalExecutionContext this)) + j)
        with (fetches (internalExecutionContext this) + S j) by lia.
      apply Hpages. lia. }
    exists thisk. repeat split; auto.
    + intro fuel. cbn [Nat.add]. rewrite Hstep. apply Hrun.
    + rewrite Hfk, Hf1. lia.
    + rewrite Hhk, Hf1, Hh1. reflexivity.
Qed.

(** X8: [current] on an empty buffer skips the pages that carry no items:
    when the next [k] fetches bring empty pages and the one after brings
    [x :: l], the callback gets [x] with the headers of all [k + 1] fetches
    merged, [k + 1] fetches were made, the buffer is [x :: l] and the
    accumulated headers are reset.  [k + 1] re-entries suffice. *)
Theorem current_returns_first_item_after_empty_pages
        this (k : nat) (x : Document) (l : list Document) :
  itemsBuffer this = [] -> allFetched this = false -> err this = None ->
  (forall j, j < k -> emptyPage (fetchFunction (fetches (internalExecutionContext this) + j))) ->
  fetch_err (fetchFunction (fetches (internalExecutionContext this) + k)) = None ->
  fetch_resources (fetchFunction (fetches (internalExecutionContext this) + k)) = Some (x :: l) ->
  forall fuel, exists this',
    current (S k + fuel) this
      = Some ((None, Some x,
               Some (mergedHeaders (S k) (fetches (internalExecutionContext this))
                       (_respHeaders this))),
              this')
    /\ itemsBuffer this' = x :: l
    /\ err this' = None
    /\ _respHeaders this' = getInitialHeader
    /\ fetches (internalExecutionContext this') = fetches (internalExecutionContext this) + S k.
Proof.
  intros Hb Ha He Hpages Hf Hr fuel.
  destruct (current_skips_empty_pages k this Hb Ha He Hpages)
    as (thisk & Hrun & Hbk & Hak & Hek & Hfk & Hhk).
  replace (S k + fuel) with (k + S fuel) by lia. rewrite Hrun.
  rewrite <- Hfk in Hf, Hr.
  destruct (bufferMore_page thisk (x :: l) Hek Hf Hr)
    as (this1 & Hbm & Hb1 & _ & He1 & Hf1 & Hh1).
  rewrite Hbk in Hb1. cbn [app] in Hb1.
  rewrite (current_unfold (S fuel) thisk), Hbk, Hak, Hbm.
  rewrite (current_buffered fuel _ x l) by exact Hb1.
  eexists. split.
  - cbn [_respHeaders set_respHeaders]. rewrite Hh1, Hhk, Hfk.
    replace (S k) with (k + 1) by lia.
    assert (Hsplit : forall a n h,
              mergedHeaders (a + 1) n h
              = mergeHeaders (mergedHeaders a n h)
                  (Some (fetch_headers (fetchFunction (n + a))))).
    { induction a as [|a IHa]; intros n h; cbn [Nat.add mergedHeaders].
      - now rewrite Nat.add_0_r.
      - rewrite IHa. replace (S n + a) with (n + S a) by lia. reflexivity. }
    rewrite Hsplit. reflexivity.
  - cbn. repeat split; auto. rewrite Hf1, Hfk. lia.
Qed.

(** X9: when the fetch after [k] empty pages fails with [e], or reports the
    end of data, [current] hands to its callback the error, or no item, with
    the headers of that last fetch alone; the headers of the [k] empty pages
    stay merged in the producer, which is left with the sticky error [e],
    or exhausted, and an empty buffer. *)
Theorem current_ends_after_empty_pages this (k : nat) :
  itemsBuffer this = [] -> allFetched this = false -> err this = None ->
  (forall j, j < k -> emptyPage (fetchFunction (fetches (internalExecutionContext this) + j))) ->
  let last := fetchFunction (fetches (internalExecutionContext this) + k) in
  (forall e, fetch_err last = Some e ->
     forall fuel, exists this',
       current (k + fuel) this = Some ((Some e, None, Some (fetch_headers last)), this')
       /\ err this' = Some e /\ itemsBuffer this' = []
       /\ _respHeaders this'
          = mergedHeaders k (fetches (internalExecutionContext this)) (_respHeaders this))
  /\ (fetch_err last = None -> fetch_resources last = None ->
      forall fuel, exists this',
        current (k + fuel) this = Some ((None, None, Some (fetch_headers last)), this')
        /\ allFetched this' = true /\ err this' = None /\ itemsBuffer this' = []
        /\ _respHeaders this'
           = mergedHeaders k (fetches (internalExecutionContext this)) (_respHeaders this)).
Proof.
  intros Hb Ha He Hpages last.
  destruct (current_skips_empty_pages k this Hb Ha He Hpages)
    as (thisk & Hrun & Hbk & Hak & Hek & Hfk & Hhk).
  subst last. rewrite <- Hfk.
  split.
  - intros e Hf fuel. rewrite Hrun.
    pose proof (bufferMore_fetch thisk Hek) as Hbm. cbv zeta in Hbm. rewrite Hf in Hbm.
    rewrite (current_unfold fuel thisk), Hbk, Hak, Hbm.
    eexists. split; [reflexivity|]. cbn. repeat split; auto.
  - intros Hf Hr fuel. rewrite Hrun.
    destruct (bufferMore_end thisk Hek Hf Hr) as (this1 & Hbm & Hb1 & Ha1 & He1 & Hh1).
    rewrite (current_unfold fuel thisk), Hbk, Hak, Hbm.
    exists this1. split; [reflexivity|].
    rewrite Hb1, Hh1. repeat split; auto.
Qed.

Lemma nextItem_buffered this (item : Document) (rest : list Document) (fuel : nat) :
  err this = None -> itemsBuffer this = item :: rest ->
  nextItem fuel this
  = Some (Returned (None, Some item, Some (_respHeaders this)),
          set_itemsBuffer (set_respHeaders this getInitialHeader) rest).
Proof.
  intros He Hb. unfold nextItem.
  rewrite He, (current_buffered fuel this item rest Hb). cbn. rewrite Hb. cbn.
  now rewrite Nat.eqb_refl.
Qed.

Lemma nextItemTimes_prefix (n fuel : nat) : forall this,
  err this = None -> n <= List.length (itemsBuffer this) ->
  exists this',
    nextItemTimes n fuel this = Some (firstn n (itemsBuffer this), this')
    /\ itemsBuffer this' = skipn n (itemsBuffer this)
    /\ err this' = None
    /\ internalExecutionContext this' = internalExecutionContext this.
Proof.
  induction n as [|n IH]; intros this He Hn.
  - exists this. repeat split; auto.
  - destruct (itemsBuffer this) as [|item rest] eqn:Hb; [cbn in Hn; lia|].
    cbn [nextItemTimes]. rewrite (nextItem_buffered this item rest fuel He Hb).
    destruct (IH (set_itemsBuffer (set_respHeaders this getInitialHeader) rest))
      as (this' & Hrun & Hb' & He' & Hc').
    + exact He.
    + cbn in *. lia.
    + rewrite Hrun. exists this'. cbn in *. repeat split; auto.
Qed.

(** X10: on a producer without error, [n] calls of [nextItem], for [n] up to
    the number of buffered items, hand out the first [n] items of the buffer
    in buffer order, leave the others in place and never call the fetch
    layer. *)
Theorem nextItem_hands_out_buffer_in_order this (n fuel : nat) :
  err this = None -> n <= List.length (itemsBuffer this) ->
  exists this',
    nextItemTimes n fuel this = Some (firstn n (itemsBuffer this), this')
    /\ itemsBuffer this' = skipn n (itemsBuffer this)
    /\ internalExecutionContext this' = internalExecutionContext this.
Proof.
  intros He Hn.
  destruct (nextItemTimes_prefix n fuel this He Hn) as (this' & Hrun & Hb & _ & Hc).
  exists this'. auto.
Qed.

(** X11: what [n] successful refills put into an empty buffer comes out
    through [nextItem], one item per call, in the order the fetch layer
    delivered it, and the buffer is empty again. *)
Theorem refills_then_nextItem_round_trip this (n fuel : nat) :
  err this = None ->
  itemsBuffer this = [] ->
  (forall k, k < n ->
     fetch_err (fetchFunction (fetches (internalExecutionContext this) + k)) = None) ->
  exists this',
    nextItemTimes (List.length (refilledItems n (internalExecutionContext this))) fuel
      (bufferMoreTimes n this)
    = Some (refilledItems n (internalExecutionContext this), this')
    /\ itemsBuffer this' = [].
Proof.
  intros He Hb Hok.
  destruct (bufferMoreTimes_success n this He Hok) as (Hitems & Herr).
  rewrite Hb in Hitems. cbn [app] in Hitems.
  destruct (nextItemTimes_prefix
              (List.length (refilledItems n (internalExecutionContext this))) fuel
              (bufferMoreTimes n this) Herr) as (this' & Hrun & Hb' & _ & _).
  - rewrite Hitems. lia.
  - exists this'. rewrite Hitems in Hrun, Hb'.
    rewrite firstn_all in Hrun. rewrite skipn_all in Hb'. auto.
Qed.

End ProducerInvariants.

(** * Further properties of the comparator *)

(** ** Comparison of doubles, from the specification of the primitives *)

Lemma SFcompare_antisym (a b : SpecFloat.spec_float) (c : comparison) :
  SpecFloat.SFcompare a b = Some c -> SpecFloat.SFcompare b a = Some (CompOpp c).
Proof.
  destruct a as [sa|sa| |sa ma ea], b as [sb|sb| |sb mb eb]; cbn;
    intro H; try discriminate; injection H as <-;
    try (destruct sa; reflexivity); try (destruct sb; reflexivity);
    try (destruct sa, sb; reflexivity).
  assert (Hp : Pos.compare_cont Eq mb ma = CompOpp (Pos.compare_cont Eq ma mb))
    by (rewrite Pos.compare_cont_antisym; reflexivity).
  rewrite Hp, (Z.compare_antisym ea eb).
  destruct sa, sb, (Z.compare ea eb), (Pos.compare_cont Eq ma mb); reflexivity.
Qed.

Lemma SFcompare_refl (a : SpecFloat.spec_float) :
  a <> SpecFloat.S754_nan -> SpecFloat.SFcompare a a = Some Eq.
Proof.
  destruct a as [sa|sa| |sa ma ea]; cbn; intro H; try congruence.
  - destruct sa; reflexivity.
  - destruct sa; rewrite Z.compare_refl, Pos.compare_cont_refl; reflexivity.
Qed.

Lemma SFcompare_nan_r (a : SpecFloat.spec_float) :
  SpecFloat.SFcompare a SpecFloat.S754_nan = None.
Proof.
  destruct a; reflexivity.
Qed.

Lemma SFcompare_defined (a b : SpecFloat.spec_float) :
  a <> SpecFloat.S754_nan -> b <> SpecFloat.S754_nan ->
  exists c, SpecFloat.SFcompare a b = Some c.
Proof.
  destruct a as [sa|sa| |sa ma ea], b as [sb|sb| |sb mb eb]; cbn;
    intros Ha Hb; try congruence; eauto.
Qed.

(** [x == x] fails on NaN alone. *)
Lemma float_self_equal (x : float) :
  PrimFloat.eqb x x = true <-> FloatOps.Prim2SF x <> SpecFloat.S754_nan.
Proof.
  rewrite FloatAxioms.eqb_spec. unfold SpecFloat.SFeqb. split.
  - intros H Hn. rewrite Hn in H. discriminate.
  - intro H. now rewrite SFcompare_refl.
Qed.

(** On two doubles that are not NaN, [a == b ? 0 : (a > b ? 1 : -1)] changes
    sign with the order of its operands. *)
Lemma float_three_way_antisym (x y : float) :
  PrimFloat.eqb x x = true -> PrimFloat.eqb y y = true ->
  (if PrimFloat.eqb x y then 0 else if PrimFloat.ltb y x then 1 else -1)%Z
  = (- (if PrimFloat.eqb y x then 0 else if PrimFloat.ltb x y then 1 else -1))%Z.
Proof.
  intros Hx Hy. apply float_self_equal in Hx, Hy.
  rewrite !FloatAxioms.eqb_spec, !FloatAxioms.ltb_spec.
  unfold SpecFloat.SFeqb, SpecFloat.SFltb.
  destruct (SFcompare_defined _ _ Hx Hy) as (c & Hc).
  rewrite Hc, (SFcompare_antisym _ _ c Hc). destruct c; reflexivity.
Qed.

(** NaN is neither equal to nor greater than any double, on either side. *)
Lemma float_nan_comparisons (x y : float) :
  PrimFloat.eqb x x = false ->
  PrimFloat.eqb x y = false /\ PrimFloat.eqb y x = false
  /\ PrimFloat.ltb x y = false /\ PrimFloat.ltb y x = false.
Proof.
  intro Hx.
  assert (Hn : FloatOps.Prim2SF x = SpecFloat.S754_nan).
  { destruct (FloatOps.Prim2SF x) eqn:Hsf; try reflexivity;
      exfalso; (assert (Ht : PrimFloat.eqb x x = true)
                 by (apply float_self_equal; rewrite Hsf; discriminate));
      congruence. }
  rewrite !FloatAxioms.eqb_spec, !FloatAxioms.ltb_spec, Hn.
  unfold SpecFloat.SFeqb, SpecFloat.SFltb. rewrite SFcompare_nan_r. auto.
Qed.

Lemma string_compare_refl (s : string) : String.compare s s = Eq.
Proof.
  now apply OrderedTypeEx.String_as_OT.cmp_eq.
Qed.

(** [a == b ? 0 : (a > b ? 1 : -1)] on two strings is the sign of their
    lexicographic comparison. *)
Lemma string_three_way (a b : string) :
  (if String.eqb a b then 0 else if String.ltb b a then 1 else -1)%Z
  = match String.compare a b with Eq => 0 | Lt => -1 | Gt => 1 end%Z.
Proof.
  unfold String.ltb. rewrite (String.compare_antisym b a).
  destruct (String.eqb_spec a b) as [->|Hne].
  - now rewrite string_compare_refl.
  - destruct (String.compare a b) eqn:Hc; try reflexivity.
    apply String.compare_eq_iff in Hc. contradiction.
Qed.

Section ComparatorOrder.

Context {Headers : Type} {AO : AbstractOperations}.

Implicit Types docProd : DocumentProducer Headers.

Lemma TypeName_eqb_false (a b : TypeName) : TypeName_eqb a b = false <-> a <> b.
Proof.
  rewrite <- TypeName_eqb_true. destruct (TypeName_eqb a b); split; congruence.
Qed.

(** The loop of [validateOrderByItems] passes only on positions that agree. *)
Lemma validateTypesFrom_passed (res1 res2 : list value) (n : nat) : forall i,
  validateTypesFrom res1 res2 n i = Returned tt ->
  forall j, i <= j < i + n ->
    exists type, getType (at_index res1 j) = Returned type
                 /\ getType (at_index res2 j) = Returned type.
Proof.
  induction n as [|n IH]; intros i H j Hj; [lia|].
  cbn [validateTypesFrom] in H.
  destruct (getType (at_index res1 i)) as [type1|] eqn:H1; [|discriminate].
  destruct (getType (at_index res2 i)) as [type2|] eqn:H2; [|discriminate].
  cbn [bind] in H.
  destruct (TypeName_eqb type1 type2) eqn:Heq; cbn in H; [|discriminate].
  apply TypeName_eqb_true in Heq. subst type2.
  destruct (Nat.eq_dec j i) as [->|Hne].
  - exists type1. auto.
  - apply (IH (S i) H). lia.
Qed.

Lemma validateOrderByItems_passes_iff (sortOrder : list string) (res1 res2 : list value) :
  validateOrderByItems sortOrder (Some res1) (Some res2) = Returned tt
  <-> (List.length res1 = List.length sortOrder
       /\ List.length res2 = List.length sortOrder
       /\ forall j, j < List.length sortOrder ->
            exists type, getType (at_index res1 j) = Returned type
                         /\ getType (at_index res2 j) = Returned type).
Proof.
  rewrite validateOrderByItems_lengths. split.
  - destruct (Nat.eqb (List.length res1) (List.length res2)) eqn:H12; cbn [negb];
      [|discriminate].
    destruct (Nat.eqb (List.length res1) (List.length sortOrder)) eqn:H1s; cbn [negb];
      [|discriminate].
    apply Nat.eqb_eq in H12, H1s. intro H. repeat split; try congruence.
    intros j Hj. apply (validateTypesFrom_passed _ _ _ 0 H). lia.
  - intros (H1 & H2 & Hsame). rewrite H1, H2, Nat.eqb_refl. cbn [negb].
    apply validateTypesFrom_same. intros j Hj. apply Hsame. lia.
Qed.

Lemma compare_counting_projections (sortOrder : list string) docProd1 docProd2
      (res1 res2 : list value) :
  headProjection docProd1 = Some res1 -> headProjection docProd2 = Some res2 ->
  compare_counting sortOrder docProd1 docProd2 =
  match validateOrderByItems sortOrder (Some res1) (Some res2) with
  | Threw e => (0, Threw e)
  | Returned _ =>
      compareFrom sortOrder res1 res2
        (createTargetPartitionKeyRangeComparator docProd1 docProd2) (List.length res1) 0
  end.
Proof.
  unfold headProjection. intros H1 H2.
  destruct (hd_error (peekBufferedItems docProd1)) as [d1|] eqn:Hd1; [|discriminate].
  destruct (hd_error (peekBufferedItems docProd2)) as [d2|] eqn:Hd2; [|discriminate].
  exact (compare_counting_heads sortOrder docProd1 docProd2 d1 d2 res1 res2 Hd1 H1 Hd2 H2).
Qed.

Lemma compare_without_head_projection_lemma (sortOrder : list string) docProd1 docProd2 :
  headProjection docProd1 = None \/ headProjection docProd2 = None ->
  compare_counting sortOrder docProd1 docProd2 = (0, Threw TypeError).
Proof.
  unfold headProjection, compare_counting. intro H.
  destruct (hd_error (peekBufferedItems docProd1)) as [d1|]; [|reflexivity].
  destruct (hd_error (peekBufferedItems docProd2)) as [d2|]; [|reflexivity].
  cbn [getOrderByItems]. unfold validateOrderByItems.
  destruct (orderByItems d1) as [res1|], (orderByItems d2) as [res2|];
    try reflexivity.
  destruct H; discriminate.
Qed.

(** X12: [compare] needs a head document with [orderByItems] on both sides:
    when either buffer is empty, or either head lacks the property, it
    throws a TypeError before any comparison. *)
Theorem compare_without_head_projection (sortOrder : list string) docProd1 docProd2 :
  headProjection docProd1 = None \/ headProjection docProd2 = None ->
  compare_counting sortOrder docProd1 docProd2 = (0, Threw TypeError).
Proof.
  exact (compare_without_head_projection_lemma sortOrder docProd1 docProd2).
Qed.

(** X13: [validateOrderByItems] passes exactly when both projections have as
    many entries as the sort order and [getType] gives the two entries of
    every position the same type. *)
Theorem validateOrderByItems_characterised (sortOrder : list string) (res1 res2 : list value) :
  validateOrderByItems sortOrder (Some res1) (Some res2) = Returned tt
  <-> (List.length res1 = List.length sortOrder
       /\ List.length res2 = List.length sortOrder
       /\ forall j, j < List.length sortOrder ->
            exists type, getType (at_index res1 j) = Returned type
                         /\ getType (at_index res2 j) = Returned type).
Proof.
  exact (validateOrderByItems_passes_iff sortOrder res1 res2).
Qed.

(** The loop of [compare] up to the first position that does not tie. *)
Lemma compareFrom_ties_then (sortOrder : list string) (res1 res2 : list value) (tie : Z)
      (i : nat) (n : nat) : forall i0,
  i0 <= i < i0 + n ->
  (forall j, i0 <= j < i ->
     compareOrderByItem (at_index res1 j) (at_index res2 j) = Returned 0%Z) ->
  compareFrom sortOrder res1 res2 tie n i0 =
  let (calls, r) := compareFrom sortOrder res1 res2 tie (n - (i - i0)) i in
  (i - i0 + calls, r).
Proof.
  induction n as [|n IH]; intros i0 Hi Hties; [lia|].
  destruct (Nat.eq_dec i0 i) as [->|Hne].
  - rewrite Nat.sub_diag, Nat.sub_0_r.
    destruct (compareFrom sortOrder res1 res2 tie (S n) i). reflexivity.
  - cbn [compareFrom]. rewrite (Hties i0 ltac:(lia)). cbn [Z.eqb negb].
    rewrite (IH (S i0)) by (try lia; intros j Hj; apply Hties; lia).
    replace (n - (i - S i0)) with (S n - (i - i0)) by lia.
    destruct (compareFrom sortOrder res1 res2 tie (S n - (i - i0)) i) as [calls r].
    f_equal. lia.
Qed.

(** X14: when the validation passes, the first position whose values do not
    compare equal decides: under ['Ascending'] the comparator returns the
    per-value result [c], under ['Descending'] its opposite; the positions
    after it are not compared and the partition bounds are not consulted. *)
Theorem first_unequal_key_decides (sortOrder : list string) docProd1 docProd2
        (res1 res2 : list value) (i : nat) (c : Z) :
  headProjection docProd1 = Some res1 -> headProjection docProd2 = Some res2 ->
  validateOrderByItems sortOrder (Some res1) (Some res2) = Returned tt ->
  i < List.length sortOrder ->
  (forall j, j < i ->
     compareOrderByItem (at_index res1 j) (at_index res2 j) = Returned 0%Z) ->
  compareOrderByItem (at_index res1 i) (at_index res2 i) = Returned c ->
  c <> 0%Z ->
  (nth_error sortOrder i = Some "Ascending" ->
     compare_counting sortOrder docProd1 docProd2 = (S i, Returned c))
  /\ (nth_error sortOrder i = Some "Descending" ->
      compare_counting sortOrder docProd1 docProd2 = (S i, Returned (- c)%Z)).
Proof.
  intros H1 H2 Hv Hi Hties Hc Hnz.
  rewrite (compare_counting_projections sortOrder _ _ res1 res2 H1 H2), Hv.
  apply validateOrderByItems_passes_iff in Hv. destruct Hv as (Hl1 & _ & _).
  rewrite (compareFrom_ties_then sortOrder res1 res2 _ i (List.length res1) 0)
    by (try lia; intros j Hj; apply Hties; lia).
  rewrite Nat.sub_0_r.
  destruct (List.length res1 - i) as [|m] eqn:Hm; [lia|].
  cbn [compareFrom]. rewrite Hc.
  apply Z.eqb_neq in Hnz. rewrite Hnz. cbn [negb].
  split; intros ->; cbn; f_equal; lia.
Qed.

(** The loop of [compare] under a sort order without a direction it knows. *)
Lemma compareFrom_unknown_directions (sortOrder : list string) (res1 res2 : list value)
      (tie : Z) (n : nat) : forall i,
  Forall (fun direction => known_direction direction = false) sortOrder ->
  (forall j, i <= j < i + n ->
     exists c, compareOrderByItem (at_index res1 j) (at_index res2 j) = Returned c) ->
  compareFrom sortOrder res1 res2 tie n i = (n, Returned tie).
Proof.
  intro i. revert i.
  induction n as [|n IH]; intros i Hdir Hret; [reflexivity|].
  cbn [compareFrom]. destruct (Hret i ltac:(lia)) as (c & ->).
  rewrite (IH (S i) Hdir) by (intros j Hj; apply Hret; lia).
  assert (Hskip : is_direction (nth_error sortOrder i) "Ascending" = false
                  /\ is_direction (nth_error sortOrder i) "Descending" = false).
  { destruct (nth_error sortOrder i) as [d|] eqn:Hd; [|auto].
    apply nth_error_In in Hd. rewrite Forall_forall in Hdir.
    specialize (Hdir d Hd). unfold known_direction in Hdir.
    apply orb_false_iff in Hdir. exact Hdir. }
  destruct Hskip as (-> & ->). destruct (negb (c =? 0)%Z); reflexivity.
Qed.

(** X15: a sort order none of whose entries is exactly ['Ascending'] or
    ['Descending'] makes [compare] ignore every key: all positions are
    compared, whatever they give is dropped, and the result is that of the
    partition comparator. *)
Theorem unknown_directions_are_ignored (sortOrder : list string) docProd1 docProd2
        (res1 res2 : list value) :
  headProjection docProd1 = Some res1 -> headProjection docProd2 = Some res2 ->
  validateOrderByItems sortOrder (Some res1) (Some res2) = Returned tt ->
  Forall (fun direction => known_direction direction = false) sortOrder ->
  (forall j, j < List.length sortOrder ->
     exists c, compareOrderByItem (at_index res1 j) (at_index res2 j) = Returned c) ->
  compare_counting sortOrder docProd1 docProd2
  = (List.length sortOrder,
     Returned (createTargetPartitionKeyRangeComparator docProd1 docProd2)).
Proof.
  intros H1 H2 Hv Hdir Hret.
  rewrite (compare_counting_projections sortOrder _ _ res1 res2 H1 H2), Hv.
  apply validateOrderByItems_passes_iff in Hv. destruct Hv as (-> & _ & _).
  apply compareFrom_unknown_directions; [exact Hdir|].
  intros j Hj. apply Hret. lia.
Qed.

(** X16: a value whose [typeof] is ['object'] (null, an object, an array) has
    no entry in the rank table: two heads that carry such values at a
    position pass the validation, and [compare] throws a TypeError when it
    reaches that position. *)
Theorem object_valued_key_throws (sortOrder : list string) docProd1 docProd2
        (res1 res2 : list value) (i : nat) :
  (forall v, typeof v = Tobject -> getType (VObject [("item", v)]) = Returned Tobject)
  /\ (headProjection docProd1 = Some res1 -> headProjection docProd2 = Some res2 ->
      validateOrderByItems sortOrder (Some res1) (Some res2) = Returned tt ->
      i < List.length sortOrder ->
      (forall j, j < i ->
         compareOrderByItem (at_index res1 j) (at_index res2 j) = Returned 0%Z) ->
      getType (at_index res1 i) = Returned Tobject ->
      compare_counting sortOrder docProd1 docProd2 = (S i, Threw TypeError)).
Proof.
  split.
  - intros v Hv. rewrite getType_of_properties. cbn. now rewrite Hv.
  - intros H1 H2 Hv Hi Hties Ht.
    rewrite (compare_counting_projections sortOrder _ _ res1 res2 H1 H2), Hv.
    apply validateOrderByItems_passes_iff in Hv. destruct Hv as (Hl1 & _ & Hsame).
    destruct (Hsame i Hi) as (type & Ht1 & Ht2).
    assert (type = Tobject) by congruence. subst type.
    rewrite (compareFrom_ties_then sortOrder res1 res2 _ i (List.length res1) 0)
      by (try lia; intros j Hj; apply Hties; lia).
    rewrite Nat.sub_0_r.
    destruct (List.length res1 - i) as [|m] eqn:Hm; [lia|].
    cbn [compareFrom]. unfold compareOrderByItem. rewrite Ht1, Ht2. cbn.
    f_equal. lia.
Qed.

Lemma partition_comparator_sign docProd1 docProd2 :
  createTargetPartitionKeyRangeComparator docProd1 docProd2
  = match String.compare (minInclusive (getTargetParitionKeyRange docProd1))
                         (minInclusive (getTargetParitionKeyRange docProd2)) with
    | Eq => 0 | Lt => -1 | Gt => 1
    end%Z.
Proof.
  unfold createTargetPartitionKeyRangeComparator. apply string_three_way.
Qed.

Lemma partition_comparator_antisym docProd1 docProd2 :
  createTargetPartitionKeyRangeComparator docProd2 docProd1
  = (- createTargetPartitionKeyRangeComparator docProd1 docProd2)%Z.
Proof.
  rewrite !partition_comparator_sign.
  rewrite (String.compare_antisym (minInclusive (getTargetParitionKeyRange docProd2))).
  destruct (String.compare _ _); reflexivity.
Qed.

(** X17: the partition comparator is a total order on the [minInclusive]
    bounds: it returns -1, 0 or 1, changes sign when the producers are
    swapped, is 0 exactly on equal bounds, and is transitive. *)
Theorem partition_comparator_total_order docProd1 docProd2 docProd3 :
  (createTargetPartitionKeyRangeComparator docProd1 docProd2 = (-1)%Z
   \/ createTargetPartitionKeyRangeComparator docProd1 docProd2 = 0%Z
   \/ createTargetPartitionKeyRangeComparator docProd1 docProd2 = 1%Z)
  /\ createTargetPartitionKeyRangeComparator docProd2 docProd1
     = (- createTargetPartitionKeyRangeComparator docProd1 docProd2)%Z
  /\ (createTargetPartitionKeyRangeComparator docProd1 docProd2 = 0%Z
      <-> minInclusive (getTargetParitionKeyRange docProd1)
          = minInclusive (getTargetParitionKeyRange docProd2))
  /\ (createTargetPartitionKeyRangeComparator docProd1 docProd2 = (-1)%Z ->
      createTargetPartitionKeyRangeComparator docProd2 docProd3 = (-1)%Z ->
      createTargetPartitionKeyRangeComparator docProd1 docProd3 = (-1)%Z).
Proof.
  split; [|split; [|split]].
  - rewrite partition_comparator_sign. destruct (String.compare _ _); auto.
  - apply partition_comparator_antisym.
  - rewrite partition_comparator_sign. split.
    + destruct (String.compare _ _) eqn:Hc; try discriminate.
      intros _. now apply String.compare_eq_iff.
    + intros ->. now rewrite string_compare_refl.
  - rewrite !partition_comparator_sign.
    destruct (String.compare (minInclusive (getTargetParitionKeyRange docProd1))
                (minInclusive (getTargetParitionKeyRange docProd2))) eqn:H12;
      try discriminate.
    destruct (String.compare (minInclusive (getTargetParitionKeyRange docProd2))
                (minInclusive (getTargetParitionKeyRange docProd3))) eqn:H23;
      try discriminate.
    intros _ _.
    apply OrderedTypeEx.String_as_OT.cmp_lt in H12, H23.
    pose proof (OrderedTypeEx.String_as_OT.lt_trans _ _ _ H12 H23) as H13.
    apply OrderedTypeEx.String_as_OT.cmp_lt in H13.
    unfold OrderedTypeEx.String_as_OT.cmp in H13. now rewrite H13.
Qed.

(** X18: on two order-by items that carry strings the per-value comparison is
    the sign of the lexicographic comparison of the strings, and on two that
    carry booleans false is below true. *)
Theorem compareOrderByItem_strings_and_booleans :
  (forall s t,
     compareOrderByItem (VObject [("item", VString s)]) (VObject [("item", VString t)])
     = Returned (match String.compare s t with Eq => 0 | Lt => -1 | Gt => 1 end)%Z)
  /\ (forall a b,
        compareOrderByItem (VObject [("item", VBool a)]) (VObject [("item", VBool b)])
        = Returned (match a, b with
                    | false, true => -1
                    | true, false => 1
                    | _, _ => 0
                    end)%Z).
Proof.
  split.
  - intros s t. cbn. unfold compFunc_body, js_eq, js_gt. now rewrite string_three_way.
  - intros [] []; reflexivity.
Qed.

(** What [getType] answers is ['NoValue'] or the [typeof] of the [item]
    field. *)
Lemma getType_is_typeof (v : value) (type : TypeName) :
  getType v = Returned type -> type = NoValue \/ type = typeof (item_of v).
Proof.
  destruct v; try discriminate.
  - rewrite getType_of_properties. cbn [item_of].
    destruct (has_property props "false"); intro H; injection H as <-; auto.
  - intro H. injection H as <-. auto.
Qed.

(** The shared comparison function changes sign with the order of two
    operands of one primitive type, NaN apart. *)
Lemma compFunc_body_antisym (a b : value) :
  self_equal a = true -> self_equal b = true ->
  (typeof a = Tboolean \/ typeof a = Tnumber \/ typeof a = Tstring) ->
  typeof b = typeof a ->
  compFunc_body b a = (- compFunc_body a b)%Z.
Proof.
  intros Ha Hb Hta Htb. unfold compFunc_body.
  destruct a as [| |x|x|x| |], b as [| |y|y|y| |]; cbn in Hta, Htb;
    try (destruct Hta as [Hta|[Hta|Hta]]; discriminate); try discriminate.
  - destruct x, y; reflexivity.
  - cbn [js_eq js_gt]. symmetry.
    rewrite (float_three_way_antisym x y Ha Hb). lia.
  - cbn [js_eq js_gt]. rewrite !string_three_way, (String.compare_antisym y x).
    destruct (String.compare x y); reflexivity.
Qed.

Lemma compareOrderByItem_antisym (a b : value) (c : Z) :
  self_equal (item_of a) = true -> self_equal (item_of b) = true ->
  compareOrderByItem a b = Returned c ->
  compareOrderByItem b a = Returned (- c)%Z.
Proof.
  intros Hsa Hsb. unfold compareOrderByItem.
  destruct (getType a) as [type1|] eqn:Ha; [|discriminate].
  destruct (getType b) as [type2|] eqn:Hb; [|discriminate].
  cbn [bind]. unfold compareValue.
  destruct (_typeOrdComparator type1) as [e1|] eqn:H1; [|discriminate].
  destruct (_typeOrdComparator type2) as [e2|] eqn:H2; [|discriminate].
  cbn [bind].
  destruct (getType_is_typeof a type1 Ha) as [Hn1|Hty1];
    destruct (getType_is_typeof b type2 Hb) as [Hn2|Hty2];
    destruct type1, type2; try discriminate;
    injection H1 as <-; injection H2 as <-; cbn;
    try (intro H; injection H as <-; reflexivity);
    try (intro H; injection H as <-; f_equal;
         apply compFunc_body_antisym; auto; congruence).
Qed.

(** The loop of [compare] with the two producers swapped. *)
Lemma compareFrom_antisym (sortOrder : list string) (res1 res2 : list value) (tie : Z)
      (n : nat) : forall i x,
  (forall j, self_equal (item_of (at_index res1 j)) = true) ->
  (forall j, self_equal (item_of (at_index res2 j)) = true) ->
  snd (compareFrom sortOrder res1 res2 tie n i) = Returned x ->
  snd (compareFrom sortOrder res2 res1 (- tie) n i) = Returned (- x)%Z.
Proof.
  induction n as [|n IH]; intros i x Hs1 Hs2 H.
  - cbn in *. injection H as <-. reflexivity.
  - cbn [compareFrom] in *.
    destruct (compareOrderByItem (at_index res1 i) (at_index res2 i)) as [c|e] eqn:Hc;
      [|discriminate].
    rewrite (compareOrderByItem_antisym _ _ c (Hs1 i) (Hs2 i) Hc).
    specialize (IH (S i)).
    destruct (compareFrom sortOrder res1 res2 tie n (S i)) as [calls r].
    destruct (compareFrom sortOrder res2 res1 (- tie) n (S i)) as [calls' r'].
    cbn [snd] in IH.
    replace (- c =? 0)%Z with (c =? 0)%Z
      by (destruct (Z.eqb_spec c 0), (Z.eqb_spec (- c) 0); auto; lia).
    destruct (negb (c =? 0)%Z); [|now apply IH].
    destruct (is_direction (nth_error sortOrder i) "Ascending").
    + cbn in *. injection H as <-. reflexivity.
    + destruct (is_direction (nth_error sortOrder i) "Descending").
      * cbn in *. injection H as <-. reflexivity.
      * now apply IH.
Qed.

Lemma self_equal_at_index (res : list value) :
  Forall (fun v => self_equal (item_of v) = true) res ->
  forall j, self_equal (item_of (at_index res j)) = true.
Proof.
  intros Hall j. unfold at_index.
  destruct (Nat.lt_ge_cases j (List.length res)) as [Hj|Hj].
  - rewrite Forall_forall in Hall. apply Hall. now apply nth_In.
  - now rewrite nth_overflow.
Qed.

(** X19: the comparator handed to the priority queue changes sign when the
    two producers are swapped, as long as no order-by value of the two head
    documents is NaN: if it returns [x] one way, it returns [- x] the other
    way. *)
Theorem createOrderByComparator_antisymmetric (sortOrder : list string) docProd1 docProd2 (x : Z) :
  Forall (fun v => self_equal (item_of v) = true) (elements_of (headProjection docProd1)) ->
  Forall (fun v => self_equal (item_of v) = true) (elements_of (headProjection docProd2)) ->
  createOrderByComparator sortOrder docProd1 docProd2 = Returned x ->
  createOrderByComparator sortOrder docProd2 docProd1 = Returned (- x)%Z.
Proof.
  unfold createOrderByComparator, compare. intros Hs1 Hs2 H.
  destruct (headProjection docProd1) as [res1|] eqn:H1;
    [|rewrite compare_without_head_projection_lemma in H by auto; discriminate].
  destruct (headProjection docProd2) as [res2|] eqn:H2;
    [|rewrite compare_without_head_projection_lemma in H by auto; discriminate].
  cbn [elements_of] in Hs1, Hs2.
  rewrite (compare_counting_projections sortOrder _ _ res1 res2 H1 H2) in H.
  rewrite (compare_counting_projections sortOrder _ _ res2 res1 H2 H1).
  destruct (validateOrderByItems sortOrder (Some res1) (Some res2)) as [[]|e] eqn:Hv;
    [|discriminate].
  apply validateOrderByItems_passes_iff in Hv. destruct Hv as (Hl1 & Hl2 & Hsame).
  assert (Hv' : validateOrderByItems sortOrder (Some res2) (Some res1) = Returned tt).
  { apply validateOrderByItems_passes_iff. repeat split; auto.
    intros j Hj. destruct (Hsame j Hj) as (type & Ha & Hb). exists type. auto. }
  rewrite Hv', Hl2, <- Hl1, partition_comparator_antisym.
  apply compareFrom_antisym; auto using self_equal_at_index.
Qed.

(** X20: a NaN among the order-by values breaks that: compared with any
    number, on either side, a NaN gives -1. *)
Theorem nan_compares_below_on_both_sides (x y : float) :
  PrimFloat.eqb x x = false ->
  compareOrderByItem (VObject [("item", VNumber x)]) (VObject [("item", VNumber y)])
    = Returned (-1)%Z
  /\ compareOrderByItem (VObject [("item", VNumber y)]) (VObject [("item", VNumber x)])
     = Returned (-1)%Z.
Proof.
  intro Hx. destruct (float_nan_comparisons x y Hx) as (H1 & H2 & H3 & H4).
  split; cbn; unfold compFunc_body, js_eq, js_gt.
  - now rewrite H1, H4.
  - now rewrite H2, H3.
Qed.

End ComparatorOrder.

Section ComparatorEntries.

Context {Headers : Type} {AO : AbstractOperations}.

Implicit Types docProd : DocumentProducer Headers.

Lemma getType_of_primitive (v : value) :
  is_object v = false -> getType v = Threw TypeError.
Proof.
  destruct v; try discriminate; reflexivity.
Qed.

(** The loop of [validateOrderByItems] up to the first entry that is not an
    object. *)
Lemma validateTypesFrom_primitive (res1 res2 : list value) (i : nat) (n : nat) : forall i0,
  i0 <= i < i0 + n ->
  (forall j, i0 <= j < i ->
     exists type, getType (at_index res1 j) = Returned type
                  /\ getType (at_index res2 j) = Returned type) ->
  is_object (at_index res1 i) = false
  \/ (is_object (at_index res1 i) = true /\ is_object (at_index res2 i) = false) ->
  validateTypesFrom res1 res2 n i0 = Threw TypeError.
Proof.
  induction n as [|n IH]; intros i0 Hi Hsame Hprim; [lia|].
  cbn [validateTypesFrom].
  destruct (Nat.eq_dec i0 i) as [->|Hne].
  - destruct Hprim as [H1 | (H1 & H2)].
    + now rewrite (getType_of_primitive _ H1).
    + destruct (getType_of_object _ H1) as (type & ->).
      now rewrite (getType_of_primitive _ H2).
  - destruct (Hsame i0 ltac:(lia)) as (type & -> & ->). cbn [bind].
    replace (TypeName_eqb type type) with true
      by (symmetry; now apply TypeName_eqb_true).
    cbn. apply IH; [lia | intros j Hj; apply Hsame; lia | exact Hprim].
Qed.

(** X21: an entry of a projection that is not an object (a bare number, a
    string, null) makes the validation, and so [compare], throw a TypeError
    and not a validation [Error], when the lengths fit and the entries
    before it agree; no per-value comparison is made. *)
Theorem primitive_entry_throws_TypeError (sortOrder : list string) docProd1 docProd2
        (res1 res2 : list value) (i : nat) :
  headProjection docProd1 = Some res1 -> headProjection docProd2 = Some res2 ->
  List.length res1 = List.length sortOrder ->
  List.length res2 = List.length sortOrder ->
  i < List.length sortOrder ->
  (forall j, j < i ->
     exists type, getType (at_index res1 j) = Returned type
                  /\ getType (at_index res2 j) = Returned type) ->
  is_object (at_index res1 i) = false
  \/ (is_object (at_index res1 i) = true /\ is_object (at_index res2 i) = false) ->
  compare_counting sortOrder docProd1 docProd2 = (0, Threw TypeError).
Proof.
  intros H1 H2 Hl1 Hl2 Hi Hsame Hprim.
  rewrite (compare_counting_projections sortOrder _ _ res1 res2 H1 H2).
  rewrite validateOrderByItems_lengths, Hl1, Hl2, Nat.eqb_refl. cbn [negb].
  rewrite (validateTypesFrom_primitive res1 res2 i (List.length sortOrder) 0);
    auto; try lia.
  intros j Hj. apply Hsame. lia.
Qed.

End ComparatorEntries.

(** * The further statements on concrete producers *)

Lemma sticky_error_is_permanent_witness :
  err (snd (bufferMore (PF := pageThenFailure) afterFailedPrefetch)) = Some timeout408
  /\ itemsBuffer (snd (bufferMore (PF := pageThenFailure) afterFailedPrefetch)) = [doc2]
  /\ err (snd (consumeBufferedItems afterFailedPrefetch)) = Some timeout408.
Proof.
  destruct (sticky_error_is_permanent (HU := chargeHeaders) (PF := pageThenFailure)
              afterFailedPrefetch timeout408 eq_refl) as ((Herr & Hbuffer) & Hconsume & _).
  split; [exact Herr|]. split; [exact Hbuffer | exact Hconsume].
Defined.

Lemma exhaustion_is_permanent_witness :
  allFetched (snd (bufferMore (PF := twoPages) exhausted)) = true
  /\ allFetched (snd (consumeBufferedItems exhausted)) = true.
Proof.
  destruct (exhaustion_is_permanent (HU := chargeHeaders) (PF := twoPages) exhausted eq_refl)
    as (Hrefill & Hconsume & _).
  split; [exact Hrefill | exact Hconsume].
Defined.

Lemma failed_fetch_sets_sticky_error_witness :
  exists this',
    bufferMore (PF := pageThenFailure) (snd (bufferMore (PF := pageThenFailure) freshProducer))
      = ((Some timeout408, None, Some 1), this')
    /\ err this' = Some timeout408
    /\ itemsBuffer this' = [doc1; doc2]
    /\ bufferMoreTimes (PF := pageThenFailure) 4 this' = this'.
Proof.
  destruct (failed_fetch_sets_sticky_error (PF := pageThenFailure)
              (snd (bufferMore (PF := pageThenFailure) freshProducer)) timeout408
              eq_refl eq_refl)
    as (this' & Hcall & Herr & Hbuffer & _ & _ & _ & _ & Hlater).
  exists this'. split; [exact Hcall|]. split; [exact Herr|].
  split; [exact Hbuffer | exact (Hlater 4)].
Defined.

Lemma end_of_data_exhausts_witness :
  exists this',
    bufferMore (PF := twoPages) (bufferMoreTimes (PF := twoPages) 2 freshProducer)
      = ((None, None, Some 1), this')
    /\ allFetched this' = true
    /\ itemsBuffer this' = [doc1; doc2; doc3].
Proof.
  destruct (end_of_data_exhausts (HU := chargeHeaders) (PF := twoPages)
              (bufferMoreTimes (PF := twoPages) 2 freshProducer) eq_refl eq_refl eq_refl)
    as (this' & Hcall & Hflag & Hbuffer & _).
  exists this'. split; [exact Hcall|]. split; [exact Hflag | exact Hbuffer].
Defined.

Lemma refill_synchronises_tokens_witness :
  continuationToken (snd (bufferMore (PF := twoPages) freshProducer)) = TokString "page2"
  /\ previousContinuationToken (snd (bufferMore (PF := twoPages) freshProducer)) = TokUndefined.
Proof.
  destruct (proj2 (refill_synchronises_tokens (PF := twoPages) freshProducer) eq_refl eq_refl)
    as (Htoken & _ & Hprevious & _).
  split; [exact Htoken|]. apply Hprevious. discriminate.
Defined.

Lemma consume_without_token_exhausts_witness :
  allFetched (snd (consumeBufferedItems freshProducer)) = true
  /\ option_map fst
       (current (HU := chargeHeaders) (PF := twoPages) 3 (snd (consumeBufferedItems freshProducer)))
     = Some (None, None, Some 0).
Proof.
  destruct (proj1 (consume_without_token_exhausts (HU := chargeHeaders) (PF := twoPages)
                     freshProducer) (or_introl eq_refl)) as (Hflag & Hcurrent).
  split; [exact Hflag|]. rewrite (proj1 (Hcurrent 3)). reflexivity.
Defined.

Lemma current_does_not_consume_witness :
  exists this1,
    current (HU := chargeHeaders) (PF := twoPages) 0 (producerWith range0000 [doc1; doc2])
      = Some ((None, Some doc1, Some 0), this1)
    /\ itemsBuffer this1 = [doc1; doc2]
    /\ current (HU := chargeHeaders) (PF := twoPages) 0 this1
       = Some ((None, Some doc1, Some 0), this1).
Proof.
  destruct (current_does_not_consume (HU := chargeHeaders) (PF := twoPages)
              (producerWith range0000 [doc1; doc2]) doc1 [doc2] 0 eq_refl)
    as (this1 & Hfirst & Hbuffer & _ & Hagain).
  exists this1. split; [exact Hfirst|]. split; [exact Hbuffer | exact (Hagain 0)].
Defined.

Lemma current_returns_first_item_after_empty_pages_witness :
  exists this',
    current (HU := chargeHeaders) (PF := emptyPagesThenPage) 3 freshProducer
      = Some ((None, Some doc1, Some 7), this')
    /\ itemsBuffer this' = [doc1; doc2]
    /\ fetches (internalExecutionContext this') = 3.
Proof.
  destruct (current_returns_first_item_after_empty_pages
              (HU := chargeHeaders) (PF := emptyPagesThenPage) freshProducer 2 doc1 [doc2]
              eq_refl eq_refl eq_refl) with (fuel := 0)
    as (this' & Hcall & Hbuffer & _ & _ & Hfetches).
  - intros j Hj. destruct j as [|[|j]]; [split; reflexivity | split; reflexivity | lia].
  - reflexivity.
  - reflexivity.
  - exists this'. split; [exact Hcall|]. split; [exact Hbuffer | exact Hfetches].
Defined.

Lemma current_ends_after_empty_pages_witness :
  (exists this',
     current (HU := chargeHeaders) (PF := emptyPagesThenFailure) 2 freshProducer
       = Some ((Some timeout408, None, Some 5), this')
     /\ err this' = Some timeout408 /\ _respHeaders this' = 2)
  /\ (exists this',
        current (HU := chargeHeaders) (PF := emptyPagesThenEnd) 2 freshProducer
          = Some ((None, None, Some 5), this')
        /\ allFetched this' = true /\ _respHeaders this' = 2).
Proof.
  split.
  - assert (Hpages : forall j, j < 2 -> emptyPage (emptyPagesThenFailure (0 + j))).
    { intros j Hj. destruct j as [|[|j]]; [split; reflexivity | split; reflexivity | lia]. }
    destruct (proj1 (current_ends_after_empty_pages
                       (HU := chargeHeaders) (PF := emptyPagesThenFailure) freshProducer 2
                       eq_refl eq_refl eq_refl Hpages)
                timeout408 eq_refl 0) as (this' & Hcall & Herr & _ & Hheaders).
    exists this'. split; [exact Hcall|]. split; [exact Herr | exact Hheaders].
  - assert (Hpages : forall j, j < 2 -> emptyPage (emptyPagesThenEnd (0 + j))).
    { intros j Hj. destruct j as [|[|j]]; [split; reflexivity | split; reflexivity | lia]. }
    destruct (proj2 (current_ends_after_empty_pages
                       (HU := chargeHeaders) (PF := emptyPagesThenEnd) freshProducer 2
                       eq_refl eq_refl eq_refl Hpages)
                eq_refl eq_refl 0) as (this' & Hcall & Hflag & _ & _ & Hheaders).
    exists this'. split; [exact Hcall|]. split; [exact Hflag | exact Hheaders].
Defined.

Lemma nextItem_hands_out_buffer_in_order_witness :
  exists this',
    nextItemTimes (HU := chargeHeaders) (PF := twoPages) 2 0
      (producerWith range0000 [doc1; doc2; doc3])
    = Some ([doc1; doc2], this')
    /\ itemsBuffer this' = [doc3].
Proof.
  destruct (nextItem_hands_out_buffer_in_order (HU := chargeHeaders) (PF := twoPages)
              (producerWith range0000 [doc1; doc2; doc3]) 2 0 eq_refl)
    as (this' & Hrun & Hbuffer & _).
  - cbn. lia.
  - exists this'. split; [exact Hrun | exact Hbuffer].
Defined.

Lemma refills_then_nextItem_round_trip_witness :
  exists this',
    nextItemTimes (HU := chargeHeaders) (PF := twoPages) 3 0
      (bufferMoreTimes (PF := twoPages) 2 freshProducer)
    = Some ([doc1; doc2; doc3], this')
    /\ itemsBuffer this' = [].
Proof.
  apply (refills_then_nextItem_round_trip (HU := chargeHeaders) (PF := twoPages)
           freshProducer 2 0 eq_refl eq_refl).
  intros k Hk. destruct k as [|[|k]]; [reflexivity | reflexivity | lia].
Defined.

Lemma compare_without_head_projection_witness :
  compare_counting (AO := noCoercion) ["Ascending"]
    (producerWith range0000 []) (producerWith range3FFF [doc1])
  = (0, Threw TypeError).
Proof.
  apply (compare_without_head_projection (AO := noCoercion)). left. reflexivity.
Defined.

Lemma validateOrderByItems_characterised_witness :
  validateOrderByItems ["Ascending"; "Descending"]
    (orderByItems docAlice30) (orderByItems docAlice25) = Returned tt.
Proof.
  apply (proj2 (validateOrderByItems_characterised ["Ascending"; "Descending"]
                  [VObject [("item", VString "alice")]; VObject [("item", VNumber 30)]]
                  [VObject [("item", VString "alice")]; VObject [("item", VNumber 25)]])).
  split; [reflexivity|]. split; [reflexivity|].
  intros j Hj. destruct j as [|[|j]].
  - exists Tstring. split; reflexivity.
  - exists Tnumber. split; reflexivity.
  - cbn in Hj. lia.
Defined.

Lemma first_unequal_key_decides_witness :
  compare_counting (AO := noCoercion) ["Ascending"; "Descending"]
    (producerWith range0000 [docAlice30]) (producerWith range3FFF [docAlice25])
  = (2, Returned (-1)%Z).
Proof.
  assert (Hties : forall j, j < 1 ->
            compareOrderByItem (AO := noCoercion)
              (at_index [VObject [("item", VString "alice")]; VObject [("item", VNumber 30)]] j)
              (at_index [VObject [("item", VString "alice")]; VObject [("item", VNumber 25)]] j)
            = Returned 0%Z).
  { intros j Hj. destruct j as [|j]; [reflexivity | lia]. }
  assert (Hi : 1 < List.length ["Ascending"; "Descending"]) by (cbn; lia).
  assert (Hnz : 1%Z <> 0%Z) by discriminate.
  exact (proj2 (first_unequal_key_decides (AO := noCoercion) ["Ascending"; "Descending"]
                  (producerWith range0000 [docAlice30]) (producerWith range3FFF [docAlice25])
                  _ _ 1 1%Z eq_refl eq_refl eq_refl Hi Hties eq_refl Hnz) eq_refl).
Defined.

Lemma unknown_directions_are_ignored_witness :
  compare_counting (AO := noCoercion) ["ascending"]
    (producerWith range3FFF [doc1]) (producerWith range0000 [doc3])
  = (1, Returned 1%Z).
Proof.
  apply (unknown_directions_are_ignored (AO := noCoercion) ["ascending"]
           (producerWith range3FFF [doc1]) (producerWith range0000 [doc3])
           _ _ eq_refl eq_refl eq_refl).
  - repeat constructor.
  - intros j Hj. exists (-1)%Z. destruct j as [|j]; [reflexivity | cbn in Hj; lia].
Defined.

Lemma object_valued_key_throws_witness :
  compare_counting (AO := noCoercion) ["Ascending"]
    (producerWith range0000 [docNull]) (producerWith range3FFF [docNull])
  = (1, Threw TypeError).
Proof.
  apply (proj2 (object_valued_key_throws (AO := noCoercion) ["Ascending"]
                  (producerWith range0000 [docNull]) (producerWith range3FFF [docNull])
                  _ _ 0) eq_refl eq_refl eq_refl).
  - cbn. lia.
  - intros j Hj. lia.
  - reflexivity.
Defined.

Lemma partition_comparator_total_order_witness :
  createTargetPartitionKeyRangeComparator
    (producerWith range0000 [])
    (producerWith {| id := "2"; minInclusive := "7FFF"; maxExclusive := "FF" |} [])
  = (-1)%Z.
Proof.
  apply (proj2 (proj2 (proj2 (partition_comparator_total_order
                                (producerWith range0000 [])
                                (producerWith range3FFF [])
                                (producerWith {| id := "2"; minInclusive := "7FFF";
                                                 maxExclusive := "FF" |} []))))).
  - reflexivity.
  - reflexivity.
Defined.

Lemma createOrderByComparator_antisymmetric_witness :
  createOrderByComparator (AO := noCoercion) ["Ascending"; "Descending"]
    (producerWith range3FFF [docAlice25]) (producerWith range0000 [docAlice30])
  = Returned (- -1)%Z.
Proof.
  apply (createOrderByComparator_antisymmetric (AO := noCoercion) ["Ascending"; "Descending"]
           (producerWith range0000 [docAlice30]) (producerWith range3FFF [docAlice25])).
  - repeat constructor.
  - repeat constructor.
  - reflexivity.
Defined.

Lemma nan_compares_below_on_both_sides_witness :
  compareOrderByItem (AO := noCoercion)
    (VObject [("item", VNumber PrimFloat.nan)]) (VObject [("item", VNumber 5)])
    = Returned (-1)%Z
  /\ compareOrderByItem (AO := noCoercion)
       (VObject [("item", VNumber 5)]) (VObject [("item", VNumber PrimFloat.nan)])
     = Returned (-1)%Z.
Proof.
  apply (nan_compares_below_on_both_sides (AO := noCoercion) PrimFloat.nan 5). reflexivity.
Defined.

Lemma primitive_entry_throws_TypeError_witness :
  compare_counting (AO := noCoercion) ["Ascending"]
    (producerWith range0000 [docOf 14 [VNumber 5]]) (producerWith range3FFF [docNumber5])
  = (0, Threw TypeError).
Proof.
  apply (primitive_entry_throws_TypeError (AO := noCoercion) ["Ascending"]
           (producerWith range0000 [docOf 14 [VNumber 5]]) (producerWith range3FFF [docNumber5])
           _ _ 0 eq_refl eq_refl eq_refl eq_refl).
  - cbn. lia.
  - intros j Hj. lia.
  - left. reflexivity.
Defined.
